(** * ambiance-hub: the role table, the track library, the preference store
    and the player controls

    A shallow embedding of the SQL migrations (tables, row-level policies,
    [has_role], [make_user_admin], [handle_new_user]) and of the React
    components that talk to them ([AmbiencePlayer], [AudioTrack],
    [TrackUploader]) and of the username form of the sign-in page.

    - A table is a list of rows, in insertion order.  UNIQUE and REFERENCES
      constraints are checked by the statements that insert, as PostgreSQL
      does, and stated as invariants of the database.
    - A row-level policy is a boolean over the caller ([auth.uid()], NULL
      for an anonymous caller) and the row.  A [WITH CHECK] policy that
      fails raises [insufficient_privilege]; a [USING] policy that fails
      hides the row from the statement, which then simply does not see it.
    - A component is its [useState] cells; an event handler is a function
      in a state monad over the component, the backend and the browser
      (console, toasts).  Inside a handler an [await]ed call runs to
      completion before the next statement.  The two reads a page sends
      as it opens are in flight together: their answers are handled in
      either order, and the controls mount as soon as the tracks are in
      ([open_page]). *)

From Stdlib Require Import ZArith List Bool Ascii String.
From stdpp Require Import gmap strings list fin_maps sorting pretty.

Local Open Scope Z_scope.

(** UUIDs and JSON object keys are strings, as in the TypeScript types.  A
    [string] here is the UTF-8 encoding of the JavaScript string: where
    the source counts UTF-16 units or looks at code points (the [length]
    of a field, the white space [trim] removes), the definitions decode
    the bytes. *)
Abbreviation UUID := string (only parsing).

(** One entry of [TrackSettings]: [{ volume: number; enabled: boolean }]. *)
Record TrackSetting := { volume : Z; enabled : bool }.

(** [interface TrackSettings { [trackId: string]: {...} }], also the
    typed reading of the [track_settings JSONB] column. *)
Abbreviation TrackSettings := (gmap string TrackSetting) (only parsing).

(* ===================================================================== *)
(** * The relational store *)
(* ===================================================================== *)

Module Pg.

(** [CREATE TYPE public.app_role AS ENUM ('admin', 'user')] *)
Inductive app_role := admin | user.

#[global] Instance app_role_eq_dec : EqDecision app_role.
Proof. solve_decision. Defined.

(** The columns of [auth.users] that the migrations read. *)
Record auth_users_row := {
  au_id : UUID;
  au_email : option string;
  au_username : option string   (* raw_user_meta_data ->> 'username' *)
}.

(** The surrogate [id UUID PRIMARY KEY DEFAULT gen_random_uuid()] of
    [user_roles], [profiles] and [user_preferences] is read by no
    statement and is left out; [tracks.id] is kept. *)
Record user_roles_row := { ur_user_id : UUID; ur_role : app_role }.

Record profiles_row := {
  pr_user_id : UUID; pr_username : string; pr_created_at : Z
}.

Record tracks_row := {
  tr_id : UUID; tr_name : string; tr_file_url : string;
  tr_created_by : UUID; tr_created_at : Z
}.

(** [track_settings JSONB DEFAULT '{}'] is nullable. *)
Record user_preferences_row := {
  up_user_id : UUID;
  up_track_settings : option TrackSettings;
  up_updated_at : Z
}.

Record storage_objects_row := { so_bucket_id : string; so_name : string }.

Record Database := {
  auth_users : list auth_users_row;
  user_roles : list user_roles_row;
  profiles : list profiles_row;
  tracks : list tracks_row;
  user_preferences : list user_preferences_row;
  storage_objects : list storage_objects_row
}.

Definition set_auth_users (v : list auth_users_row) (d : Database) :=
  {| auth_users := v; user_roles := user_roles d; profiles := profiles d;
     tracks := tracks d; user_preferences := user_preferences d;
     storage_objects := storage_objects d |}.
Definition set_user_roles (v : list user_roles_row) (d : Database) :=
  {| auth_users := auth_users d; user_roles := v; profiles := profiles d;
     tracks := tracks d; user_preferences := user_preferences d;
     storage_objects := storage_objects d |}.
Definition set_profiles (v : list profiles_row) (d : Database) :=
  {| auth_users := auth_users d; user_roles := user_roles d; profiles := v;
     tracks := tracks d; user_preferences := user_preferences d;
     storage_objects := storage_objects d |}.
Definition set_tracks (v : list tracks_row) (d : Database) :=
  {| auth_users := auth_users d; user_roles := user_roles d;
     profiles := profiles d; tracks := v;
     user_preferences := user_preferences d;
     storage_objects := storage_objects d |}.
Definition set_user_preferences (v : list user_preferences_row) (d : Database) :=
  {| auth_users := auth_users d; user_roles := user_roles d;
     profiles := profiles d; tracks := tracks d; user_preferences := v;
     storage_objects := storage_objects d |}.
Definition set_storage_objects (v : list storage_objects_row) (d : Database) :=
  {| auth_users := auth_users d; user_roles := user_roles d;
     profiles := profiles d; tracks := tracks d;
     user_preferences := user_preferences d; storage_objects := v |}.

(** SQLSTATE classes a statement of the migrations can raise. *)
Inductive SqlError :=
| insufficient_privilege   (* 42501: new row violates row-level security *)
| unique_violation         (* 23505 *)
| foreign_key_violation    (* 23503 *)
| not_null_violation.      (* 23502 *)

(** A statement or function: it reads the database and returns an error or
    a value, and the database after it.  A failed statement leaves the
    database as it found it. *)
Definition Sql (A : Type) : Type := Database -> (SqlError + A) * Database.

Definition sql_ret {A} (a : A) : Sql A := fun d => (inr a, d).

Definition sql_bind {A B} (m : Sql A) (k : A -> Sql B) : Sql B :=
  fun d =>
    match m d with
    | (inl e, d') => (inl e, d')
    | (inr a, d') => k a d'
    end.

(** A function body runs in the caller's transaction: an error undoes the
    statements already run. *)
Definition atomic {A} (m : Sql A) : Sql A :=
  fun d =>
    match m d with
    | (inl e, _) => (inl e, d)
    | (inr a, d') => (inr a, d')
    end.

(** [col = x] in a WHERE clause or a policy, [x] possibly NULL: a
    comparison with NULL is not true. *)
Definition sql_eq (col : UUID) (x : option UUID) : bool :=
  match x with
  | Some v => bool_decide (col = v)
  | None => false
  end.

Definition sql_eq_text (col : option string) (x : option string) : bool :=
  match col, x with
  | Some c, Some v => bool_decide (c = v)
  | _, _ => false
  end.

(** [public.has_role(_user_id, _role)]: [SELECT EXISTS (SELECT 1 FROM
    user_roles WHERE user_id = _user_id AND role = _role)]. *)
Definition has_role (_user_id : option UUID) (_role : app_role) : Sql bool :=
  fun d =>
    (inr (existsb (fun r => sql_eq (ur_user_id r) _user_id
                            && bool_decide (ur_role r = _role))
                  (user_roles d)), d).

(** The value of a boolean SQL function inside a policy expression; an
    error or NULL there counts as not true. *)
Definition holds (q : Sql bool) (d : Database) : bool :=
  match fst (q d) with
  | inr b => b
  | inl _ => false
  end.

(** ** Row-level policies *)

(** "Admins can insert / update / delete tracks":
    [public.has_role(auth.uid(), 'admin')]. *)
Definition policy_admin (auth_uid : option UUID) (d : Database) : bool :=
  holds (has_role auth_uid admin) d.

(** "Users can view / insert / update their own preferences":
    [auth.uid() = user_id]. *)
Definition policy_own (auth_uid : option UUID) (r : user_preferences_row) : bool :=
  sql_eq (up_user_id r) auth_uid.

(** Storage policies: [bucket_id = 'tracks'], for writes together with the
    admin role. *)
Definition policy_bucket (r : storage_objects_row) : bool :=
  bool_decide (so_bucket_id r = "tracks").

Definition user_exists (id : UUID) (d : Database) : bool :=
  existsb (fun u => bool_decide (au_id u = id)) (auth_users d).

(** ** Statements on [tracks] *)

(** [ORDER BY created_at ASC] *)
Definition created_at_asc (a b : tracks_row) : Prop :=
  tr_created_at a <= tr_created_at b.

#[global] Instance created_at_asc_dec : RelDecision created_at_asc.
Proof. intros a b. unfold created_at_asc. apply _. Defined.

(** [SELECT * FROM tracks ORDER BY created_at ASC]; "Tracks are viewable by
    everyone" ([USING (true)]). *)
Definition tracks_select (auth_uid : option UUID) : Sql (list tracks_row) :=
  fun d => (inr (merge_sort created_at_asc (tracks d)), d).

(** [INSERT INTO tracks ...]: the [WITH CHECK] policy is evaluated on the
    new row before the constraints are. *)
Definition tracks_insert (auth_uid : option UUID) (new : tracks_row) : Sql unit :=
  fun d =>
    if negb (policy_admin auth_uid d) then (inl insufficient_privilege, d)
    else if existsb (fun r => bool_decide (tr_id r = tr_id new)) (tracks d)
    then (inl unique_violation, d)
    else if negb (user_exists (tr_created_by new) d)
    then (inl foreign_key_violation, d)
    else (inr tt, set_tracks (tracks d ++ [new]) d).

(** [DELETE FROM tracks WHERE id = $1]: the [USING] policy restricts the
    rows the statement sees; rows it does not see stay, and no error is
    raised for them. *)
Definition tracks_delete (auth_uid : option UUID) (id : UUID) : Sql unit :=
  fun d =>
    (inr tt,
     set_tracks
       (List.filter
          (fun r => negb (bool_decide (tr_id r = id) && policy_admin auth_uid d))
          (tracks d))
       d).

(** ** Statements on [user_preferences] *)

(** [SELECT track_settings FROM user_preferences WHERE user_id = $1],
    restricted by the SELECT policy. *)
Definition user_preferences_select (auth_uid : option UUID) (user_id : UUID)
  : Sql (list user_preferences_row) :=
  fun d =>
    (inr (List.filter
            (fun r => policy_own auth_uid r && bool_decide (up_user_id r = user_id))
            (user_preferences d)), d).

(** [INSERT INTO user_preferences (user_id, track_settings, updated_at)
    VALUES (...) ON CONFLICT (user_id) DO UPDATE SET (all three) =
    EXCLUDED.*].  The INSERT policy checks the proposed row; on the update
    path the UPDATE and SELECT policies check the existing row, which has
    the same [user_id] and so passes the same test. *)
Definition user_preferences_upsert (auth_uid : option UUID)
    (new : user_preferences_row) : Sql unit :=
  fun d =>
    if negb (policy_own auth_uid new) then (inl insufficient_privilege, d)
    else if existsb (fun r => bool_decide (up_user_id r = up_user_id new))
                    (user_preferences d)
    then (inr tt,
          set_user_preferences
            ((fun r => if bool_decide (up_user_id r = up_user_id new)
                       then new else r)
               <$> user_preferences d)
            d)
    else if negb (user_exists (up_user_id new) d)
    then (inl foreign_key_violation, d)
    else (inr tt, set_user_preferences (user_preferences d ++ [new]) d).

(** ** Statements on [storage.objects] *)

(** Upload of an object: "Admins can upload tracks". *)
Definition storage_insert (auth_uid : option UUID) (new : storage_objects_row)
  : Sql unit :=
  fun d =>
    if negb (policy_bucket new && policy_admin auth_uid d)
    then (inl insufficient_privilege, d)
    else if existsb (fun r => bool_decide (so_bucket_id r = so_bucket_id new)
                              && bool_decide (so_name r = so_name new))
                    (storage_objects d)
    then (inl unique_violation, d)
    else (inr tt, set_storage_objects (storage_objects d ++ [new]) d).

(** ** Functions run with the definer's rights (no policy applies) *)

Definition user_roles_insert (new : user_roles_row) : Sql unit :=
  fun d =>
    if existsb (fun r => bool_decide (ur_user_id r = ur_user_id new)
                         && bool_decide (ur_role r = ur_role new))
               (user_roles d)
    then (inl unique_violation, d)
    else if negb (user_exists (ur_user_id new) d)
    then (inl foreign_key_violation, d)
    else (inr tt, set_user_roles (user_roles d ++ [new]) d).

(** [SELECT id INTO target_user_id FROM auth.users WHERE email =
    user_email]: the first row found, NULL when there is none. *)
Definition select_id_by_email (user_email : option string) (d : Database)
  : option UUID :=
  au_id <$> List.find (fun u => sql_eq_text (au_email u) user_email) (auth_users d).

(** [public.make_user_admin(user_email TEXT)] *)
Definition make_user_admin (user_email : option string) : Sql unit :=
  atomic (fun d =>
    let target_user_id := select_id_by_email user_email d in
    match target_user_id with
    | Some uid =>
        if negb (existsb (fun r => bool_decide (ur_user_id r = uid)
                                   && bool_decide (ur_role r = admin))
                         (user_roles d))
        then user_roles_insert {| ur_user_id := uid; ur_role := admin |} d
        else (inr tt, d)
    | None => (inr tt, d)
    end).

(** ** Account creation: the trigger [on_auth_user_created] *)

Definition profiles_insert (new : profiles_row) : Sql unit :=
  fun d =>
    if existsb (fun r => bool_decide (pr_user_id r = pr_user_id new)
                         || bool_decide (pr_username r = pr_username new))
               (profiles d)
    then (inl unique_violation, d)
    else if negb (user_exists (pr_user_id new) d)
    then (inl foreign_key_violation, d)
    else (inr tt, set_profiles (profiles d ++ [new]) d).

(** [INSERT INTO user_preferences (user_id) VALUES (...)]: the other
    columns take their defaults, ['{}'] and [now()]. *)
Definition user_preferences_insert_default (user_id : UUID) (now : Z) : Sql unit :=
  fun d =>
    if existsb (fun r => bool_decide (up_user_id r = user_id)) (user_preferences d)
    then (inl unique_violation, d)
    else if negb (user_exists user_id d)
    then (inl foreign_key_violation, d)
    else (inr tt,
          set_user_preferences
            (user_preferences d ++
               [{| up_user_id := user_id; up_track_settings := Some ∅;
                   up_updated_at := now |}])
            d).

(** [public.handle_new_user()], with [new] the inserted [auth.users] row. *)
Definition handle_new_user (new : auth_users_row) (now : Z) : Sql unit :=
  match from_option Some (au_email new) (au_username new) with  (* COALESCE *)
  | None => fun d => (inl not_null_violation, d)
  | Some username =>
      sql_bind (profiles_insert {| pr_user_id := au_id new;
                                   pr_username := username;
                                   pr_created_at := now |}) (fun _ =>
      sql_bind (user_roles_insert {| ur_user_id := au_id new; ur_role := user |}) (fun _ =>
      user_preferences_insert_default (au_id new) now))
  end.

(** [INSERT INTO auth.users], followed by the AFTER INSERT trigger, in one
    transaction. *)
Definition auth_users_insert (new : auth_users_row) (now : Z) : Sql unit :=
  atomic (fun d =>
    if user_exists (au_id new) d then (inl unique_violation, d)
    else handle_new_user new now (set_auth_users (auth_users d ++ [new]) d)).

(** ** The constraints, as invariants *)

(** [UNIQUE (user_id, role)] on [user_roles]. *)
Definition user_roles_unique (d : Database) : Prop :=
  NoDup ((fun r => (ur_user_id r, ur_role r)) <$> user_roles d).

(** [user_id ... UNIQUE] on [user_preferences]. *)
Definition user_preferences_unique (d : Database) : Prop :=
  NoDup (up_user_id <$> user_preferences d).

(** How many rows of [user_roles] hold the pair (user, role). *)
Definition count_role (uid : UUID) (role : app_role) (d : Database) : nat :=
  length (List.filter (fun r => bool_decide (ur_user_id r = uid)
                                && bool_decide (ur_role r = role))
                      (user_roles d)).

(** The document stored for a user, when there is exactly one. *)
Definition stored_settings (uid : UUID) (d : Database) : option TrackSettings :=
  match List.filter (fun r => bool_decide (up_user_id r = uid)) (user_preferences d) with
  | [r] => up_track_settings r
  | _ => None
  end.

End Pg.

(* ===================================================================== *)
(** * src/components/AudioTrack.tsx *)
(* ===================================================================== *)

Module AudioTrack.

(** [AudioTrackProps]; a prop left out is [None] and takes the default of
    the parameter list.  The three callbacks are not fields: a call of one
    is an element of the list a transition returns ([Emit]). *)
Record Props := {
  id : string;
  name : string;
  fileUrl : string;
  initialVolume : option Z;
  initialEnabled : option bool;
  canDelete : option bool
}.

(** The part of [HTMLAudioElement] the component uses.  [audio_volume] is
    the element's [volume] in hundredths ([audio.volume = volume / 100]). *)
Record Audio := {
  src : string;
  loop : bool;
  audio_volume : Z;
  paused : bool
}.

(** The [useState] cells and the [useRef]. *)
Record State := {
  volume : Z;
  enabled : bool;
  isPlaying : bool;
  audioRef : option Audio
}.

Inductive Emit :=
| onVolumeChange (id : string) (volume : Z)
| onEnabledChange (id : string) (enabled : bool)
| onDelete (id : string)
| console_error.

Definition set_volume (v : Z) (s : State) : State :=
  {| volume := v; enabled := enabled s; isPlaying := isPlaying s;
     audioRef := audioRef s |}.
Definition set_enabled (b : bool) (s : State) : State :=
  {| volume := volume s; enabled := b; isPlaying := isPlaying s;
     audioRef := audioRef s |}.
Definition set_isPlaying (b : bool) (s : State) : State :=
  {| volume := volume s; enabled := enabled s; isPlaying := b;
     audioRef := audioRef s |}.
Definition set_audioRef (a : option Audio) (s : State) : State :=
  {| volume := volume s; enabled := enabled s; isPlaying := isPlaying s;
     audioRef := a |}.

(** [audio.play()].  [granted] is the browser's answer: when it refuses
    (autoplay policy, media that cannot load) the promise rejects, the
    element stays as it was and [.catch(console.error)] logs, in a later
    microtask: after the effect that called [play()] has run to its end.
    A ['play'] event reaches the listener only when the element was
    paused. *)
Definition play (granted : bool) (a : Audio) (s : State) : State * list Emit :=
  if granted then
    (set_audioRef
       (Some {| src := src a; loop := loop a; audio_volume := audio_volume a;
                paused := false |})
       (if paused a then set_isPlaying true s else s),
     [])
  else (s, [console_error]).

(** [audio.pause()]; the ['pause'] event fires only when the element was
    not paused. *)
Definition pause (a : Audio) (s : State) : State :=
  set_audioRef
    (Some {| src := src a; loop := loop a; audio_volume := audio_volume a;
             paused := true |})
    (if paused a then s else set_isPlaying false s).

(** First effect, dependencies [[fileUrl]]: [new Audio(fileUrl)]. *)
Definition effect_audio (p : Props) (s : State) : State :=
  set_audioRef
    (Some {| src := fileUrl p; loop := true; audio_volume := volume s;
             paused := true |})
    s.

(** Second effect, dependencies [[volume, id, onVolumeChange]]. *)
Definition effect_volume (p : Props) (s : State) : State * list Emit :=
  (match audioRef s with
   | Some a =>
       set_audioRef
         (Some {| src := src a; loop := loop a; audio_volume := volume s;
                  paused := paused a |})
         s
   | None => s
   end,
   [onVolumeChange (id p) (volume s)]).

(** Third effect, dependencies [[enabled, volume, id, onEnabledChange]].
    The callback is called before a rejected [play()] is logged. *)
Definition effect_playback (granted : bool) (p : Props) (s : State)
  : State * list Emit :=
  let '(s', logged) :=
    match audioRef s with
    | Some a =>
        if enabled s && (0 <? volume s)
        then play granted a s
        else (pause a s, [])
    | None => (s, [])
    end in
  (s', onEnabledChange (id p) (enabled s) :: logged).

(** Mounting: the initial state, then the three effects in order. *)
Definition mount (granted : bool) (p : Props) : State * list Emit :=
  let s0 := {| volume := default 50 (initialVolume p);
               enabled := default true (initialEnabled p);
               isPlaying := false;
               audioRef := None |} in
  let s1 := effect_audio p s0 in
  let '(s2, out2) := effect_volume p s1 in
  let '(s3, out3) := effect_playback granted p s2 in
  (s3, out2 ++ out3).

(** The two transitions of a control.  [handleVolumeChange] receives
    [value[0]] of the slider's one-thumb array. *)
Inductive Action :=
| handleVolumeChange (value : Z)
| handleEnabledChange (checked : bool).

(** A state setter called with the current value re-renders nothing and
    runs no effect; otherwise the effects whose dependencies changed run,
    in order of declaration. *)
Definition step (granted : bool) (p : Props) (a : Action) (s : State)
  : State * list Emit :=
  match a with
  | handleVolumeChange v =>
      if bool_decide (v = volume s) then (s, [])
      else
        let '(s2, out2) := effect_volume p (set_volume v s) in
        let '(s3, out3) := effect_playback granted p s2 in
        (s3, out2 ++ out3)
  | handleEnabledChange c =>
      if bool_decide (c = enabled s) then (s, [])
      else effect_playback granted p (set_enabled c s)
  end.

(** A run of the control: each transition comes with the browser's answer
    to the [play()] it may trigger. *)
Fixpoint run (p : Props) (tr : list (Action * bool)) (s : State) : State :=
  match tr with
  | [] => s
  | (a, granted) :: tr' => run p tr' (fst (step granted p a s))
  end.

(** The audio element is playing. *)
Definition playing (s : State) : bool :=
  match audioRef s with
  | Some a => negb (paused a)
  | None => false
  end.

End AudioTrack.

(* ===================================================================== *)
(** * The client: the Supabase client, the browser and [AmbiencePlayer] *)
(* ===================================================================== *)

Module AmbiencePlayer.

(** [interface Track] *)
Record Track := { id : string; name : string; file_url : string }.

(** The [user] of [useAuth()]: the session's user. *)
Record User := { user_id : UUID; user_email : option string }.

(** What [supabase-js] hands back in [error]. *)
Inductive PostgrestError :=
| sql_error (e : Pg.SqlError)
| multiple_rows            (* maybeSingle() on more than one row *)
| fetch_failed.            (* the backend could not be reached *)

(** A call the client issued, as it left the client. *)
Inductive Request :=
| tracks_select
| tracks_insert (name file_url : string) (created_by : UUID)
| tracks_delete (id : UUID)
| user_preferences_select (user_id : UUID)
| user_preferences_upsert (user_id : UUID) (track_settings : TrackSettings)
                          (updated_at : Z)
| storage_upload (bucket fileName : string).

Inductive Text :=
| lit (s : string)
| message (e : PostgrestError).

Inductive Variant := default_variant | destructive.

Record Toast := { title : string; description : Text; variant : Variant }.

(** Everything a handler can read or change.  [db], [online] and [now]
    belong to the world outside the page; [requests], [console] and
    [toasts] record what the page did; [user] and [isAdmin] come from
    [useAuth()]; the last three are the [useState] cells of
    [AmbiencePlayer].  [supabaseUrl] is the project URL of the client
    configuration. *)
Record World := {
  db : Pg.Database;
  online : bool;
  now : Z;
  supabaseUrl : string;
  requests : list Request;
  console : list string;
  toasts : list Toast;
  user : option User;
  isAdmin : bool;
  tracks : list Track;
  trackSettings : TrackSettings;
  loading : bool
}.

Definition set_db (v : Pg.Database) (w : World) : World :=
  {| db := v; online := online w; now := now w; supabaseUrl := supabaseUrl w;
     requests := requests w; console := console w; toasts := toasts w;
     user := user w; isAdmin := isAdmin w; tracks := tracks w;
     trackSettings := trackSettings w; loading := loading w |}.
Definition set_requests (v : list Request) (w : World) : World :=
  {| db := db w; online := online w; now := now w; supabaseUrl := supabaseUrl w;
     requests := v; console := console w; toasts := toasts w;
     user := user w; isAdmin := isAdmin w; tracks := tracks w;
     trackSettings := trackSettings w; loading := loading w |}.
Definition set_console (v : list string) (w : World) : World :=
  {| db := db w; online := online w; now := now w; supabaseUrl := supabaseUrl w;
     requests := requests w; console := v; toasts := toasts w;
     user := user w; isAdmin := isAdmin w; tracks := tracks w;
     trackSettings := trackSettings w; loading := loading w |}.
Definition set_toasts (v : list Toast) (w : World) : World :=
  {| db := db w; online := online w; now := now w; supabaseUrl := supabaseUrl w;
     requests := requests w; console := console w; toasts := v;
     user := user w; isAdmin := isAdmin w; tracks := tracks w;
     trackSettings := trackSettings w; loading := loading w |}.
Definition set_tracks (v : list Track) (w : World) : World :=
  {| db := db w; online := online w; now := now w; supabaseUrl := supabaseUrl w;
     requests := requests w; console := console w; toasts := toasts w;
     user := user w; isAdmin := isAdmin w; tracks := v;
     trackSettings := trackSettings w; loading := loading w |}.
Definition set_trackSettings (v : TrackSettings) (w : World) : World :=
  {| db := db w; online := online w; now := now w; supabaseUrl := supabaseUrl w;
     requests := requests w; console := console w; toasts := toasts w;
     user := user w; isAdmin := isAdmin w; tracks := tracks w;
     trackSettings := v; loading := loading w |}.
Definition set_loading (v : bool) (w : World) : World :=
  {| db := db w; online := online w; now := now w; supabaseUrl := supabaseUrl w;
     requests := requests w; console := console w; toasts := toasts w;
     user := user w; isAdmin := isAdmin w; tracks := tracks w;
     trackSettings := trackSettings w; loading := v |}.

(** ** The monad of handlers *)

Definition M (A : Type) : Type := World -> A * World.

#[global] Instance M_ret : MRet M := fun A a w => (a, w).
#[global] Instance M_bind : MBind M :=
  fun A B k m w => let '(a, w') := m w in k a w'.

Definition exec {A} (m : M A) (w : World) : World := snd (m w).

Definition get {A} (f : World -> A) : M A := fun w => (f w, w).
Definition modify (f : World -> World) : M unit := fun w => (tt, f w).

Definition console_error (label : string) : M unit :=
  modify (fun w => set_console (console w ++ [label]) w).
Definition toast (t : Toast) : M unit :=
  modify (fun w => set_toasts (toasts w ++ [t]) w).
Definition setTracks (v : list Track) : M unit := modify (set_tracks v).
Definition setTrackSettings (v : TrackSettings) : M unit :=
  modify (set_trackSettings v).
Definition setLoading (v : bool) : M unit := modify (set_loading v).

(** [auth.uid()] of a request: the id in the session's token. *)
Definition auth_uid (w : World) : option UUID := user_id <$> user w.

(** One round trip: the request leaves the client; when the backend is
    reachable the statement runs there under the caller's identity. *)
Definition supabase {A} (rq : Request) (stmt : option UUID -> Pg.Sql A)
  : M (PostgrestError + A) :=
  fun w =>
    let w1 := set_requests (requests w ++ [rq]) w in
    if online w then
      match stmt (auth_uid w) (db w) with
      | (inl e, _) => (inl (sql_error e), w1)
      | (inr a, d') => (inr a, set_db d' w1)
      end
    else (inl fetch_failed, w1).

(** [.maybeSingle()] *)
Definition maybeSingle {A} (r : PostgrestError + list A)
  : PostgrestError + option A :=
  match r with
  | inl e => inl e
  | inr [] => inr None
  | inr [x] => inr (Some x)
  | inr _ => inl multiple_rows
  end.

Definition to_Track (r : Pg.tracks_row) : Track :=
  {| id := Pg.tr_id r; name := Pg.tr_name r; file_url := Pg.tr_file_url r |}.

(** ** The handlers of [AmbiencePlayer] *)

Definition fetchTracks : M unit :=
  r ← supabase tracks_select Pg.tracks_select;
  match r with
  | inl _ =>
      console_error "Error fetching tracks:";;
      toast {| title := "Error"; description := lit "Failed to load tracks.";
               variant := destructive |}
  | inr data =>
      setTracks (to_Track <$> data);;
      setLoading false
  end.

Definition fetchPreferences : M unit :=
  u ← get user;
  match u with
  | None => mret tt
  | Some u =>
      r ← supabase (user_preferences_select (user_id u))
            (fun caller => Pg.user_preferences_select caller (user_id u));
      match maybeSingle r with
      | inl _ => console_error "Error fetching preferences:"
      | inr data =>
          match data ≫= Pg.up_track_settings with
          | Some track_settings => setTrackSettings track_settings
          | None => mret tt
          end
      end
  end.

Definition savePreferences (newSettings : TrackSettings) : M unit :=
  u ← get user;
  match u with
  | None => mret tt
  | Some u =>
      t ← get now;
      r ← supabase (user_preferences_upsert (user_id u) newSettings t)
            (fun caller =>
               Pg.user_preferences_upsert caller
                 {| Pg.up_user_id := user_id u;
                    Pg.up_track_settings := Some newSettings;
                    Pg.up_updated_at := t |});
      match r with
      | inl _ => console_error "Error saving preferences:"
      | inr _ => mret tt
      end
  end.

(** [{ ...prev[id], volume, enabled: prev[id]?.enabled ?? true }] *)
Definition handleVolumeChange (id : string) (volume : Z) : M unit :=
  prev ← get trackSettings;
  let newSettings :=
    <[id := {| volume := volume;
               enabled := default true (enabled <$> prev !! id) |}]> prev in
  savePreferences newSettings;;
  setTrackSettings newSettings.

(** [{ ...prev[id], enabled, volume: prev[id]?.volume ?? 50 }] *)
Definition handleEnabledChange (id : string) (enabled : bool) : M unit :=
  prev ← get trackSettings;
  let newSettings :=
    <[id := {| volume := default 50 (volume <$> prev !! id);
               enabled := enabled |}]> prev in
  savePreferences newSettings;;
  setTrackSettings newSettings.

Definition handleDeleteTrack (id : string) : M unit :=
  r ← supabase (tracks_delete id) (fun caller => Pg.tracks_delete caller id);
  match r with
  | inl _ =>
      console_error "Delete error:";;
      toast {| title := "Error"; description := lit "Failed to delete track.";
               variant := destructive |}
  | inr _ =>
      toast {| title := "Track deleted";
               description := lit "The track has been removed.";
               variant := default_variant |};;
      fetchTracks
  end.

(** ** Rendering *)

(** The props [AmbiencePlayer] passes to the control of one track. *)
Definition props (w : World) (t : Track) : AudioTrack.Props :=
  {| AudioTrack.id := id t;
     AudioTrack.name := name t;
     AudioTrack.fileUrl := file_url t;
     AudioTrack.initialVolume :=
       Some (default 50 (volume <$> trackSettings w !! id t));
     AudioTrack.initialEnabled :=
       Some (default false (enabled <$> trackSettings w !! id t));
     AudioTrack.canDelete := Some (isAdmin w) |}.

Inductive Library :=
| NoTracks (adminHint : bool)
| Controls (controls : list AudioTrack.Props).

Inductive View :=
| Spinner
| Page (uploader : bool) (library : Library).

Definition render (w : World) : View :=
  if loading w then Spinner
  else Page (isAdmin w)
         (if bool_decide (length (tracks w) = 0%nat)
          then NoTracks (isAdmin w)
          else Controls (props w <$> tracks w)).

(** A callback of a control arrives at the handler it was given as; a
    rejected [play()] is logged by [console.error] with no label. *)
Definition dispatch (e : AudioTrack.Emit) : M unit :=
  match e with
  | AudioTrack.onVolumeChange id v => handleVolumeChange id v
  | AudioTrack.onEnabledChange id b => handleEnabledChange id b
  | AudioTrack.onDelete id => handleDeleteTrack id
  | AudioTrack.console_error => console_error EmptyString
  end.

(** ** Runs of the page *)

Inductive Event :=
| FetchTracks
| FetchPreferences
| VolumeChange (id : string) (volume : Z)
| EnabledChange (id : string) (enabled : bool)
| DeleteTrack (id : string).

Definition handle (e : Event) : M unit :=
  match e with
  | FetchTracks => fetchTracks
  | FetchPreferences => fetchPreferences
  | VolumeChange id v => handleVolumeChange id v
  | EnabledChange id b => handleEnabledChange id b
  | DeleteTrack id => handleDeleteTrack id
  end.

Fixpoint run (es : list Event) (w : World) : World :=
  match es with
  | [] => w
  | e :: es' => run es' (exec (handle e) w)
  end.


(** The page as first rendered: [useState([])], [useState({})],
    [useState(true)]. *)
Definition init (d : Pg.Database) (net : bool) (t : Z) (url : string)
    (u : option User) (adm : bool) : World :=
  {| db := d; online := net; now := t; supabaseUrl := url;
     requests := []; console := []; toasts := [];
     user := u; isAdmin := adm;
     tracks := []; trackSettings := ∅; loading := true |}.

End AmbiencePlayer.

(* ===================================================================== *)
(** * [TrackUploader]: the Create path of the library *)
(* ===================================================================== *)

Module TrackUploader.

Module AP := AmbiencePlayer.

Record File := { file_name : string }.

(** The [useState] cells of the uploader. *)
Record State := { file : option File; trackName : string; uploading : bool }.

(** [String.prototype.trim] strips the white space and the line
    terminators of ECMAScript from both ends: U+0009 to U+000D, U+0020,
    U+00A0, U+1680, U+2000 to U+200A, U+2028, U+2029, U+202F, U+205F,
    U+3000 and U+FEFF.  In UTF-8 the first six take one byte
    ([Ascii.is_space]), U+00A0 takes two and the others three. *)
Definition byte (c : ascii) : N := N_of_ascii c.

(** U+00A0 is C2 A0. *)
Definition space2 (c1 c2 : ascii) : bool :=
  ((byte c1 =? 0xC2) && (byte c2 =? 0xA0))%N.

Definition space3 (c1 c2 c3 : ascii) : bool :=
  (((byte c1 =? 0xE1) && (byte c2 =? 0x9A) && (byte c3 =? 0x80))     (* U+1680 *)
   || ((byte c1 =? 0xE2) && (byte c2 =? 0x80)
       && (((0x80 <=? byte c3) && (byte c3 <=? 0x8A))       (* U+2000 to U+200A *)
           || (byte c3 =? 0xA8) || (byte c3 =? 0xA9)        (* U+2028, U+2029 *)
           || (byte c3 =? 0xAF)))                                    (* U+202F *)
   || ((byte c1 =? 0xE2) && (byte c2 =? 0x81) && (byte c3 =? 0x9F))  (* U+205F *)
   || ((byte c1 =? 0xE3) && (byte c2 =? 0x80) && (byte c3 =? 0x80))  (* U+3000 *)
   || ((byte c1 =? 0xEF) && (byte c2 =? 0xBB) && (byte c3 =? 0xBF))  (* U+FEFF *)
  )%N.

(** [String.prototype.trimStart] *)
Fixpoint trim_start (s : string) : string :=
  match s with
  | String c1 s1 =>
      if Ascii.is_space c1 then trim_start s1
      else
        match s1 with
        | String c2 s2 =>
            if space2 c1 c2 then trim_start s2
            else
              match s2 with
              | String c3 s3 => if space3 c1 c2 c3 then trim_start s3 else s
              | EmptyString => s
              end
        | EmptyString => s
        end
  | EmptyString => EmptyString
  end.

(** The string is made of white space and line terminators only. *)
Fixpoint white_only (s : string) : bool :=
  match s with
  | String c1 s1 =>
      if Ascii.is_space c1 then white_only s1
      else
        match s1 with
        | String c2 s2 =>
            if space2 c1 c2 then white_only s2
            else
              match s2 with
              | String c3 s3 => space3 c1 c2 c3 && white_only s3
              | EmptyString => false
              end
        | EmptyString => false
        end
  | EmptyString => true
  end.

(** [String.prototype.trimEnd]: the string up to where only white space
    follows. *)
Fixpoint trim_end (s : string) : string :=
  match s with
  | String c s' => if white_only s then EmptyString else String c (trim_end s')
  | EmptyString => EmptyString
  end.

Definition trim (s : string) : string := trim_end (trim_start s).

(** [name.split('.').pop()]: what follows the last dot, the whole name
    when it has none.  [seg] is the segment read so far. *)
Fixpoint split_pop (seg s : string) : string :=
  match s with
  | String c s' =>
      if bool_decide (c = "."%char) then split_pop "" s'
      else split_pop (seg +:+ String c "") s'
  | EmptyString => seg
  end.

(** [getPublicUrl] of the storage client. *)
Definition getPublicUrl (supabaseUrl bucket path : string) : string :=
  supabaseUrl +:+ "/storage/v1/object/public/" +:+ bucket +:+ "/" +:+ path.

Definition dquote : string := String (Ascii.ascii_of_nat 34) EmptyString.

(** The [catch] block. *)
Definition upload_failed (description : AP.Text) (s : State) : AP.M State :=
  AP.console_error "Upload error:";;
  AP.toast {| AP.title := "Upload failed"; AP.description := description;
              AP.variant := AP.destructive |};;
  mret {| file := file s; trackName := trackName s; uploading := false |}.

(** [handleUpload].  [rand] is [Math.random().toString(36).substring(7)]
    and [new_id] the [gen_random_uuid()] the table draws for the row; the
    row's [created_at] is the time of the call. *)
Definition handleUpload (rand : string) (new_id : UUID) (s : State)
  : AP.M State :=
  match file s with
  | Some f =>
      if bool_decide (trim (trackName s) = "") then
        AP.toast {| AP.title := "Missing information";
                    AP.description :=
                      AP.lit "Please select a file and enter a track name.";
                    AP.variant := AP.destructive |};;
        mret s
      else
        t ← AP.get AP.now;
        let fileExt := split_pop "" (file_name f) in
        let fileName := pretty t +:+ "-" +:+ rand +:+ "." +:+ fileExt in
        r ← AP.supabase (AP.storage_upload "tracks" fileName)
              (fun caller =>
                 Pg.storage_insert caller
                   {| Pg.so_bucket_id := "tracks"; Pg.so_name := fileName |});
        match r with
        | inl e => upload_failed (AP.message e) s
        | inr _ =>
            url ← AP.get AP.supabaseUrl;
            let publicUrl := getPublicUrl url "tracks" fileName in
            u ← AP.get AP.user;
            match u with
            | None => upload_failed (AP.lit "Not authenticated") s
            | Some u =>
                r ← AP.supabase
                      (AP.tracks_insert (trim (trackName s)) publicUrl
                                        (AP.user_id u))
                      (fun caller =>
                         Pg.tracks_insert caller
                           {| Pg.tr_id := new_id;
                              Pg.tr_name := trim (trackName s);
                              Pg.tr_file_url := publicUrl;
                              Pg.tr_created_by := AP.user_id u;
                              Pg.tr_created_at := t |});
                match r with
                | inl e => upload_failed (AP.message e) s
                | inr _ =>
                    AP.toast {| AP.title := "Track uploaded!";
                                AP.description :=
                                  AP.lit (dquote +:+ trackName s +:+ dquote
                                          +:+ " has been added to the library.");
                                AP.variant := AP.default_variant |};;
                    AP.fetchTracks;;
                    mret {| file := None; trackName := ""; uploading := false |}
                end
            end
        end
  | None =>
      AP.toast {| AP.title := "Missing information";
                  AP.description :=
                    AP.lit "Please select a file and enter a track name.";
                  AP.variant := AP.destructive |};;
      mret s
  end.

(** The object in the bucket that a track's [file_url] points to. *)
Definition object_of (w : AP.World) (t : Pg.tracks_row) (o : Pg.storage_objects_row)
  : bool :=
  bool_decide (getPublicUrl (AP.supabaseUrl w) (Pg.so_bucket_id o) (Pg.so_name o)
               = Pg.tr_file_url t).

End TrackUploader.

(* ===================================================================== *)
(** * A worked scenario *)
(* ===================================================================== *)

(** Two accounts are created, the second is made admin and uploads
    "Rain"; the first sets its volume. *)
Module Scenario.

Module AP := AmbiencePlayer.

Definition alice : AP.User :=
  {| AP.user_id := "a11ce"; AP.user_email := Some "alice@example.org" |}.

Definition root : AP.User :=
  {| AP.user_id := "r007"; AP.user_email := Some "root@example.org" |}.

Definition root_row : Pg.auth_users_row :=
  {| Pg.au_id := "r007"; Pg.au_email := Some "root@example.org";
     Pg.au_username := Some "root" |}.

Definition alice_row : Pg.auth_users_row :=
  {| Pg.au_id := "a11ce"; Pg.au_email := Some "alice@example.org";
     Pg.au_username := None |}.

Definition empty_db : Pg.Database :=
  {| Pg.auth_users := []; Pg.user_roles := []; Pg.profiles := [];
     Pg.tracks := []; Pg.user_preferences := []; Pg.storage_objects := [] |}.

Definition signed_up : Pg.Database :=
  snd (Pg.auth_users_insert root_row 2
         (snd (Pg.auth_users_insert alice_row 1 empty_db))).

Definition with_admin : Pg.Database :=
  snd (Pg.make_user_admin (Some "root@example.org") signed_up).

Definition project_url : string := "https://hub.example".

Definition admin_page : AP.World :=
  AP.init with_admin true 1000 project_url (Some root) true.

Definition rain_file : TrackUploader.State :=
  {| TrackUploader.file := Some {| TrackUploader.file_name := "rain.mp3" |};
     TrackUploader.trackName := "Rain";
     TrackUploader.uploading := false |}.

(** The admin's page after the upload. *)
Definition with_rain : AP.World :=
  snd (TrackUploader.handleUpload "k3x" "t-rain" rain_file admin_page).

Definition rain_row : Pg.tracks_row :=
  {| Pg.tr_id := "t-rain"; Pg.tr_name := "Rain";
     Pg.tr_file_url :=
       "https://hub.example/storage/v1/object/public/tracks/1000-k3x.mp3";
     Pg.tr_created_by := "r007"; Pg.tr_created_at := 1000 |}.

Definition rain_object : Pg.storage_objects_row :=
  {| Pg.so_bucket_id := "tracks"; Pg.so_name := "1000-k3x.mp3" |}.

(** Alice's page over the same backend, when the answers to its two
    first requests are in and before the control of Rain mounts; then
    after she sets Rain to 30 and enables it. *)
Definition alice_page : AP.World :=
  AP.exec AP.fetchPreferences
    (AP.exec AP.fetchTracks
       (AP.init (AP.db with_rain) true 2000 project_url (Some alice) false)).



(** A visitor with no session. *)
Definition visitor_page : AP.World :=
  AP.init (AP.db with_rain) true 3000 project_url None false.

Definition rain_props : AudioTrack.Props :=
  {| AudioTrack.id := "t-rain"; AudioTrack.name := "Rain";
     AudioTrack.fileUrl :=
       "https://hub.example/storage/v1/object/public/tracks/1000-k3x.mp3";
     AudioTrack.initialVolume := Some 50;
     AudioTrack.initialEnabled := Some false;
     AudioTrack.canDelete := Some false |}.

End Scenario.

(* ===================================================================== *)
(** * What the specification asks, as predicates on runs *)
(* ===================================================================== *)

Module AP := AmbiencePlayer.

(** The caller holds no [admin] row (an anonymous caller never does). *)
Definition lacks_admin (caller : option UUID) (d : Pg.Database) : Prop :=
  Forall (fun r => Pg.ur_role r = Pg.admin -> caller ≠ Some (Pg.ur_user_id r))
         (Pg.user_roles d).

(** A statement is refused with an authorization error and leaves the
    [tracks] table as it was. *)
Definition refused {A} (stmt : Pg.Sql A) (d : Pg.Database) : Prop :=
  fst (stmt d) = inl Pg.insufficient_privilege
  ∧ Pg.tracks (snd (stmt d)) = Pg.tracks d.

(** After [handleDeleteTrack] on the row [t], neither a row with its id
    nor the object its [file_url] points to is left. *)
Definition row_and_object_gone (w : AP.World) (t : Pg.tracks_row) : Prop :=
  let w' := AP.exec (AP.handleDeleteTrack (Pg.tr_id t)) w in
  Forall (fun r => Pg.tr_id r ≠ Pg.tr_id t) (Pg.tracks (AP.db w'))
  ∧ Forall (fun o => TrackUploader.object_of w t o = false)
           (Pg.storage_objects (AP.db w')).


(** The row test of the bootstrap's [EXISTS] and of [Pg.count_role]. *)
Definition is_pair (u : UUID) (role : Pg.app_role) (r : Pg.user_roles_row) : bool :=
  bool_decide (Pg.ur_user_id r = u) && bool_decide (Pg.ur_role r = role).

(** [wp m Q w]: run from [w], the handler [m] returns a value and a world
    that satisfy [Q]. *)
Definition wp {A} (m : AP.M A) (Q : A → AP.World → Prop) (w : AP.World) : Prop :=
  Q (m w).1 (m w).2.

(** The world once a request has left the client. *)
Definition sent (rq : AP.Request) (w : AP.World) : AP.World :=
  AP.set_requests (AP.requests w ++ [rq]) w.

(** What no handler of the page changes. *)
Definition same_session (w w' : AP.World) : Prop :=
  AP.user w' = AP.user w ∧ AP.isAdmin w' = AP.isAdmin w
  ∧ AP.online w' = AP.online w ∧ AP.now w' = AP.now w
  ∧ AP.supabaseUrl w' = AP.supabaseUrl w.

(** The library as the backend lists it. *)
Definition listed (d : Pg.Database) : list AP.Track :=
  AP.to_Track <$> merge_sort Pg.created_at_asc (Pg.tracks d).

(** The row [savePreferences] sends. *)
Definition sent_row (u : AP.User) (m : TrackSettings) (t : Z)
  : Pg.user_preferences_row :=
  {| Pg.up_user_id := AP.user_id u; Pg.up_track_settings := Some m;
     Pg.up_updated_at := t |}.

(** The row test of [Pg.stored_settings]. *)
Definition of_user (uid : UUID) (r : Pg.user_preferences_row) : bool :=
  bool_decide (Pg.up_user_id r = uid).



(** The e-mail address identifies the account. *)
Definition email_identifies (e : string) (uid : UUID) (d : Pg.Database) : Prop :=
  Forall (fun v => Pg.au_email v = Some e -> Pg.au_id v = uid) (Pg.auth_users d).

(* ===================================================================== *)
(** * Runs of the backend and its constraints *)
(* ===================================================================== *)

(** The statements and functions of the migrations, each with the caller
    ([auth.uid()]) where a policy applies. *)
Inductive Statement :=
| SignUp (new : Pg.auth_users_row) (now : Z)
| MakeUserAdmin (user_email : option string)
| InsertTrack (caller : option UUID) (new : Pg.tracks_row)
| DeleteTrack (caller : option UUID) (id : UUID)
| UpsertPreferences (caller : option UUID) (new : Pg.user_preferences_row)
| Upload (caller : option UUID) (new : Pg.storage_objects_row).

(** The database after a statement; a failed one leaves it as it was. *)
Definition after (st : Statement) (d : Pg.Database) : Pg.Database :=
  match st with
  | SignUp new now => (Pg.auth_users_insert new now d).2
  | MakeUserAdmin e => (Pg.make_user_admin e d).2
  | InsertTrack c new => (Pg.tracks_insert c new d).2
  | DeleteTrack c id => (Pg.tracks_delete c id d).2
  | UpsertPreferences c new => (Pg.user_preferences_upsert c new d).2
  | Upload c new => (Pg.storage_insert c new d).2
  end.

Definition after_all (sts : list Statement) (d : Pg.Database) : Pg.Database :=
  foldl (fun d st => after st d) d sts.

(** The PRIMARY KEY, UNIQUE and REFERENCES constraints of the tables. *)
Record consistent (d : Pg.Database) : Prop := {
  users_pk : NoDup (Pg.au_id <$> Pg.auth_users d);
  roles_unique : Pg.user_roles_unique d;
  profiles_user_unique : NoDup (Pg.pr_user_id <$> Pg.profiles d);
  profiles_name_unique : NoDup (Pg.pr_username <$> Pg.profiles d);
  tracks_pk : NoDup (Pg.tr_id <$> Pg.tracks d);
  preferences_unique : Pg.user_preferences_unique d;
  objects_unique :
    NoDup ((fun o => (Pg.so_bucket_id o, Pg.so_name o)) <$> Pg.storage_objects d);
  roles_fk :
    Forall (fun r => Pg.user_exists (Pg.ur_user_id r) d = true) (Pg.user_roles d);
  profiles_fk :
    Forall (fun r => Pg.user_exists (Pg.pr_user_id r) d = true) (Pg.profiles d);
  tracks_fk :
    Forall (fun r => Pg.user_exists (Pg.tr_created_by r) d = true) (Pg.tracks d);
  preferences_fk :
    Forall (fun r => Pg.user_exists (Pg.up_user_id r) d = true)
           (Pg.user_preferences d)
}.

(** [COALESCE(new.raw_user_meta_data ->> 'username', new.email)] *)
Definition profile_name (new : Pg.auth_users_row) : option string :=
  from_option Some (Pg.au_email new) (Pg.au_username new).

(** The rows the trigger adds for a new account. *)
Definition with_account (new : Pg.auth_users_row) (username : string) (now : Z)
    (d : Pg.Database) : Pg.Database :=
  {| Pg.auth_users := Pg.auth_users d ++ [new];
     Pg.user_roles :=
       Pg.user_roles d ++ [{| Pg.ur_user_id := Pg.au_id new; Pg.ur_role := Pg.user |}];
     Pg.profiles :=
       Pg.profiles d ++ [{| Pg.pr_user_id := Pg.au_id new;
                            Pg.pr_username := username;
                            Pg.pr_created_at := now |}];
     Pg.tracks := Pg.tracks d;
     Pg.user_preferences :=
       Pg.user_preferences d ++ [{| Pg.up_user_id := Pg.au_id new;
                                    Pg.up_track_settings := Some ∅;
                                    Pg.up_updated_at := now |}];
     Pg.storage_objects := Pg.storage_objects d |}.


(* ===================================================================== *)
(** * The uploader and the controls, seen from the page *)
(* ===================================================================== *)

(** A name with no dot in it. *)
Fixpoint dot_free (s : string) : bool :=
  match s with
  | String c s' => negb (bool_decide (c = "."%char)) && dot_free s'
  | EmptyString => true
  end.


(** The object name [handleUpload] generates. *)
Definition generated_name (t : Z) (rand : string) (f : TrackUploader.File)
  : string :=
  pretty t +:+ "-" +:+ rand +:+ "." +:+
  TrackUploader.split_pop "" (TrackUploader.file_name f).

(** The page after a failed upload: the console line and the
    notification. *)
Definition upload_failure (description : AP.Text) (w : AP.World) : AP.World :=
  AP.set_toasts
    (AP.toasts w ++
       [{| AP.title := "Upload failed"; AP.description := description;
           AP.variant := AP.destructive |}])
    (AP.set_console (AP.console w ++ ["Upload error:"]) w).

(** The callbacks of a control, handled in the order they were made. *)
Fixpoint dispatch_all (out : list AudioTrack.Emit) : AP.M unit :=
  match out with
  | [] => mret tt
  | e :: out' => AP.dispatch e;; dispatch_all out'
  end.

(** The callbacks among what a transition emits. *)
Definition is_callback (e : AudioTrack.Emit) : bool :=
  match e with
  | AudioTrack.console_error => false
  | _ => true
  end.

(** The audio element of a control, whatever the browser answered:
    it is there, loops the track's file at the control's volume, and the
    [isPlaying] cell follows its ['play'] and ['pause'] events. *)
Definition mirrors (p : AudioTrack.Props) (s : AudioTrack.State) : Prop :=
  ∃ a, AudioTrack.audioRef s = Some a
       ∧ AudioTrack.src a = AudioTrack.fileUrl p
       ∧ AudioTrack.loop a = true
       ∧ AudioTrack.audio_volume a = AudioTrack.volume s
       ∧ AudioTrack.isPlaying s = negb (AudioTrack.paused a)
       ∧ (AudioTrack.paused a = false →
          AudioTrack.enabled s = true ∧ 0 < AudioTrack.volume s).

(* ===================================================================== *)
(** * Opening the page *)
(* ===================================================================== *)

(** The two mount effects of [AmbiencePlayer] send their requests one
    after the other and return at the [await]; the backend serves the
    requests in the order they leave the client, and the two answers come
    back later, in either order.  The answer to [fetchTracks] clears the
    spinner; the page then renders a control per track, and each control,
    as it mounts, reports its volume and its switch to the page. *)

(** [fetchTracks] from its [await] on. *)
Definition tracks_answer (r : AP.PostgrestError + list Pg.tracks_row)
  : AP.M unit :=
  match r with
  | inl _ =>
      AP.console_error "Error fetching tracks:";;
      AP.toast {| AP.title := "Error";
                  AP.description := AP.lit "Failed to load tracks.";
                  AP.variant := AP.destructive |}
  | inr data =>
      AP.setTracks (AP.to_Track <$> data);;
      AP.setLoading false
  end.

(** [fetchPreferences] from its [await] on. *)
Definition preferences_answer
    (r : AP.PostgrestError + list Pg.user_preferences_row) : AP.M unit :=
  match AP.maybeSingle r with
  | inl _ => AP.console_error "Error fetching preferences:"
  | inr data =>
      match data ≫= Pg.up_track_settings with
      | Some track_settings => AP.setTrackSettings track_settings
      | None => mret tt
      end
  end.

(** What the controls of a list emit as they mount, control by control in
    the order of the list.  [granted] is the browser's answer to the
    [play()] of each track's control. *)
Definition mount_all (granted : string → bool) (controls : list AudioTrack.Props)
  : list AudioTrack.Emit :=
  controls ≫= (fun p => (AudioTrack.mount (granted (AudioTrack.id p)) p).2).

(** The controls of the page as rendered mount: the page handles their
    callbacks in the order they were made, with the props of this render;
    the rejected [play()]s are logged once the effects have run. *)
Definition mount_controls (granted : string → bool) : AP.M unit :=
  w ← AP.get (fun w => w);
  match AP.render w with
  | AP.Page _ (AP.Controls controls) =>
      dispatch_all (List.filter is_callback (mount_all granted controls));;
      dispatch_all
        (List.filter (fun e => negb (is_callback e)) (mount_all granted controls))
  | _ => mret tt
  end.

(** A page opens.  With [tracks_first] the answer to [fetchTracks] is the
    first to arrive, and the controls mount before the stored preferences
    are known; otherwise the answer to [fetchPreferences] is the first. *)
Definition open_page (tracks_first : bool) (granted : string → bool)
  : AP.M unit :=
  rt ← AP.supabase AP.tracks_select Pg.tracks_select;
  u ← AP.get AP.user;
  match u with
  | Some u =>
      rp ← AP.supabase (AP.user_preferences_select (AP.user_id u))
             (fun caller => Pg.user_preferences_select caller (AP.user_id u));
      if tracks_first then
        tracks_answer rt;;
        mount_controls granted;;
        preferences_answer rp
      else
        preferences_answer rp;;
        tracks_answer rt;;
        mount_controls granted
  | None =>
      tracks_answer rt;;
      mount_controls granted
  end.





(* ===================================================================== *)
(** * The sign-in page (the username form) *)
(* ===================================================================== *)

Module Auth.

(** [errors]: a message per field that failed. *)
Record Errors := { username_error : option string; password_error : option string }.

(** The [useState] cells of the form. *)
Record State := {
  isLogin : bool;
  username : string;
  password : string;
  loading : bool;
  errors : Errors
}.

(** What a submit does outside the form, in order: the call of [signIn]
    or [signUp] of [useAuth()], notifications, the console, navigation. *)
Inductive Effect :=
| signIn (username password : string)
| signUp (username password : string)
| toast (t : AP.Toast)
| navigate (path : string)
| console_error (label : string).

(** [String.prototype.includes] *)
Fixpoint includes (needle s : string) : bool :=
  String.prefix needle s
  || match s with
     | String _ s' => includes needle s'
     | EmptyString => false
     end.

(** [String.prototype.length]: the number of UTF-16 units.  A code point
    takes one unit, two when it lies above U+FFFF.  In UTF-8 the first
    byte of a code point is below 80 or from C0 on, from F0 on for those
    above U+FFFF; the bytes that continue it (80 to BF) count for
    nothing. *)
Fixpoint utf16_length (s : string) : nat :=
  match s with
  | String c s' =>
      (if (N_of_ascii c <? 0x80)%N then 1
       else if (N_of_ascii c <? 0xC0)%N then 0
       else if (N_of_ascii c <? 0xF0)%N then 1
       else 2)%nat + utf16_length s'
  | EmptyString => 0%nat
  end.

(** [validate]: the new [errors], and whether there is none. *)
Definition validate (st : State) : bool * State :=
  let newErrors :=
    {| username_error :=
         if (utf16_length (username st) <? 3)%nat
         then Some "Username must be at least 3 characters" else None;
       password_error :=
         if (utf16_length (password st) <? 6)%nat
         then Some "Password must be at least 6 characters" else None |} in
  (match username_error newErrors, password_error newErrors with
   | None, None => true
   | _, _ => false
   end,
   {| isLogin := isLogin st; username := username st; password := password st;
      loading := loading st; errors := newErrors |}).

Definition set_loading (b : bool) (st : State) : State :=
  {| isLogin := isLogin st; username := username st; password := password st;
     loading := b; errors := errors st |}.

(** The [catch] block: [error.message || 'An error occurred...']. *)
Definition caught (message : string) : list Effect :=
  [console_error "Auth error:";
   toast {| AP.title := "Error";
            AP.description :=
              AP.lit (if bool_decide (message = "")
                      then "An error occurred. Please try again."
                      else message);
            AP.variant := AP.destructive |}].

(** [handleSubmit].  [error] is the [message] of the error the call
    comes back with, [None] when it comes back with none. *)
Definition handleSubmit (error : option string) (st : State)
  : State * list Effect :=
  let '(ok, st1) := validate st in
  if negb ok then (st1, [])
  else
    (set_loading false st1,
     if isLogin st then
       signIn (username st) (password st) ::
       match error with
       | Some message =>
           if includes "Invalid login credentials" message then
             [toast {| AP.title := "Login failed";
                       AP.description := AP.lit "Invalid username or password.";
                       AP.variant := AP.destructive |}]
           else caught message
       | None =>
           [toast {| AP.title := "Welcome back!";
                     AP.description := AP.lit "You have successfully logged in.";
                     AP.variant := AP.default_variant |};
            navigate "/"]
       end
     else
       signUp (username st) (password st) ::
       match error with
       | Some message =>
           if includes "already registered" message then
             [toast {| AP.title := "Username taken";
                       AP.description :=
                         AP.lit "This username is already registered.";
                       AP.variant := AP.destructive |}]
           else caught message
       | None =>
           [toast {| AP.title := "Account created!";
                     AP.description := AP.lit "Welcome to Ambience Generator.";
                     AP.variant := AP.default_variant |};
            navigate "/"]
       end).

(** An effect that leaves the form: a call or a navigation. *)
Definition is_call (e : Effect) : bool :=
  match e with
  | signIn _ _ | signUp _ _ => true
  | _ => false
  end.

End Auth.


(** What one handler of the page can do to the backend: nothing, one
    successful upsert of a preference row, or one delete from [tracks],
    each under the caller's identity. *)
Definition page_step (caller : option UUID) (d d' : Pg.Database) : Prop :=
  d' = d
  ∨ (∃ row, Pg.user_preferences_upsert caller row d = (inr tt, d'))
  ∨ (∃ id, d' = (Pg.tracks_delete caller id d).2).

(** Everything in the backend that is not the caller's to change from the
    page: accounts, roles, profiles, the bucket, and the preference rows
    of every other user. *)
Definition others_kept (caller : option UUID) (d d' : Pg.Database) : Prop :=
  Pg.auth_users d' = Pg.auth_users d
  ∧ Pg.user_roles d' = Pg.user_roles d
  ∧ Pg.profiles d' = Pg.profiles d
  ∧ Pg.storage_objects d' = Pg.storage_objects d
  ∧ (∀ other : UUID, caller ≠ Some other →
       List.filter (of_user other) (Pg.user_preferences d')
       = List.filter (of_user other) (Pg.user_preferences d))
  ∧ (Pg.policy_admin caller d = false → Pg.tracks d' = Pg.tracks d).


(* ===================================================================== *)
(** * The role resolver and the admin bootstrap *)
(* ===================================================================== *)

Section Lists.

Context {A : Type}.
Implicit Types (p : A → bool) (l : list A).

Lemma filter_none p l : existsb p l = false → List.filter p l = [].
Proof.
  induction l as [|x l IH]; simpl; [reflexivity|].
  destruct (p x); simpl; [discriminate|exact IH].
Qed.

Lemma filter_all p l : (∀ x, p x = true) → List.filter p l = l.
Proof.
  intros Hp. induction l as [|x l IH]; simpl; [reflexivity|].
  rewrite Hp, IH. reflexivity.
Qed.

Lemma existsb_false_elem p l x : existsb p l = false → x ∈ l → p x = false.
Proof.
  intros Hex Hx. apply not_true_is_false. intros Hpx.
  apply not_true_iff_false in Hex. apply Hex, existsb_exists.
  exists x. split; [apply list_elem_of_In, Hx|exact Hpx].
Qed.

End Lists.

Section Roles.

Implicit Types (d : Pg.Database) (uid : option UUID) (role : Pg.app_role).

Lemma sql_eq_true (col : UUID) uid : Pg.sql_eq col uid = true ↔ uid = Some col.
Proof.
  destruct uid as [v|]; simpl; [|split; discriminate].
  rewrite bool_decide_eq_true. split; [intros ->; reflexivity|congruence].
Qed.

(** The row test of [has_role], read as a proposition. *)
Lemma role_row_test uid role (r : Pg.user_roles_row) :
  Pg.sql_eq (Pg.ur_user_id r) uid && bool_decide (Pg.ur_role r = role) = true
  ↔ uid = Some (Pg.ur_user_id r) ∧ Pg.ur_role r = role.
Proof. rewrite andb_true_iff, sql_eq_true, bool_decide_eq_true. tauto. Qed.

Lemma holds_has_role uid role d :
  Pg.holds (Pg.has_role uid role) d = true
  ↔ ∃ r, r ∈ Pg.user_roles d ∧ uid = Some (Pg.ur_user_id r) ∧ Pg.ur_role r = role.
Proof.
  unfold Pg.holds, Pg.has_role; simpl. rewrite existsb_exists.
  split; intros (r & Hr & Ht); exists r.
  - apply list_elem_of_In in Hr. apply role_row_test in Ht. tauto.
  - split; [apply list_elem_of_In, Hr|apply role_row_test, Ht].
Qed.

Lemma policy_admin_false uid d :
  lacks_admin uid d → Pg.policy_admin uid d = false.
Proof.
  intros Hl. apply not_true_is_false. unfold Pg.policy_admin.
  rewrite holds_has_role. intros (r & Hr & Hu & Ha).
  unfold lacks_admin in Hl. rewrite Forall_forall in Hl.
  exact (Hl r Hr Ha Hu).
Qed.

(** C5. For every user id (NULL included) and every role, [has_role]
    returns a boolean and never an error, leaves the database as it was,
    and the boolean is true exactly when a row of [user_roles] holds that
    (user, role) pair; for a user id that no row mentions it is false. *)
Theorem has_role_exact uid role d :
  ∃ b : bool,
    Pg.has_role uid role d = (inr b, d)
    ∧ (b = true ↔ ∃ r, r ∈ Pg.user_roles d
                       ∧ uid = Some (Pg.ur_user_id r) ∧ Pg.ur_role r = role)
    ∧ ((∀ r, r ∈ Pg.user_roles d → uid ≠ Some (Pg.ur_user_id r)) → b = false).
Proof.
  pose proof (holds_has_role uid role d) as Hh.
  unfold Pg.holds, Pg.has_role in Hh |- *; simpl in Hh.
  eexists; split; [reflexivity|]. split; [exact Hh|].
  intros Habs. apply not_true_is_false. rewrite Hh.
  intros (r & Hr & Hu & _). exact (Habs r Hr Hu).
Qed.

Lemma is_pair_true u role r :
  is_pair u role r = true ↔ (Pg.ur_user_id r, Pg.ur_role r) = (u, role).
Proof.
  unfold is_pair. rewrite andb_true_iff, !bool_decide_eq_true.
  split; [intros [-> ->]; reflexivity|intros [= -> ->]; auto].
Qed.

Lemma no_pair_no_rows u role (l : list Pg.user_roles_row) :
  existsb (is_pair u role) l = false → List.filter (is_pair u role) l = [].
Proof. apply filter_none. Qed.

Lemma unique_pair_one_row u role (l : list Pg.user_roles_row) :
  NoDup ((fun r => (Pg.ur_user_id r, Pg.ur_role r)) <$> l) →
  existsb (is_pair u role) l = true →
  length (List.filter (is_pair u role) l) = 1%nat.
Proof.
  induction l as [|r l IH]; simpl; [discriminate|].
  rewrite NoDup_cons. intros [Hfresh Hnd].
  destruct (is_pair u role r) eqn:Hr; simpl.
  - intros _. f_equal. rewrite no_pair_no_rows; [reflexivity|].
    apply not_true_is_false. rewrite existsb_exists.
    intros (r' & Hin & Hr'). apply Hfresh.
    apply is_pair_true in Hr, Hr'. rewrite Hr, <- Hr'.
    apply list_elem_of_fmap. exists r'. split; [reflexivity|].
    apply list_elem_of_In, Hin.
  - exact (IH Hnd).
Qed.

Lemma find_by_email (e : string) (u : UUID) (l : list Pg.auth_users_row) :
  Forall (fun v => Pg.au_email v = Some e → Pg.au_id v = u) l →
  (∃ v, v ∈ l ∧ Pg.au_email v = Some e) →
  Pg.au_id <$> List.find (fun v => Pg.sql_eq_text (Pg.au_email v) (Some e)) l
  = Some u.
Proof.
  induction l as [|v l IH]; intros Hall (x & Hx & He).
  - inversion Hx.
  - apply Forall_cons in Hall as [Hv Hall]. simpl.
    destruct (Pg.au_email v) as [e'|] eqn:Hev; simpl.
    + case_bool_decide as Hd; simpl.
      * subst e'. rewrite (Hv eq_refl). reflexivity.
      * apply IH; [exact Hall|]. exists x. split; [|exact He].
        apply elem_of_cons in Hx as [->|Hx]; [congruence|exact Hx].
    + apply IH; [exact Hall|]. exists x. split; [|exact He].
      apply elem_of_cons in Hx as [->|Hx]; [congruence|exact Hx].
Qed.

Lemma user_exists_elem (v : Pg.auth_users_row) d :
  v ∈ Pg.auth_users d → Pg.user_exists (Pg.au_id v) d = true.
Proof.
  intros Hv. unfold Pg.user_exists. rewrite existsb_exists.
  exists v. split; [apply list_elem_of_In, Hv|apply bool_decide_eq_true; reflexivity].
Qed.

(** One call of the bootstrap: what it returns and what it leaves, by
    whether the admin row is already there. *)
Lemma make_user_admin_run (e : string) (v : Pg.auth_users_row) d :
  v ∈ Pg.auth_users d → Pg.au_email v = Some e →
  email_identifies e (Pg.au_id v) d →
  Pg.make_user_admin (Some e) d =
    (inr tt,
     if existsb (is_pair (Pg.au_id v) Pg.admin) (Pg.user_roles d) then d
     else Pg.set_user_roles
            (Pg.user_roles d ++ [{| Pg.ur_user_id := Pg.au_id v;
                                    Pg.ur_role := Pg.admin |}]) d).
Proof.
  intros Hv He Hid.
  unfold Pg.make_user_admin, Pg.atomic, Pg.select_id_by_email.
  rewrite (find_by_email e (Pg.au_id v)); [|exact Hid|eauto].
  fold (is_pair (Pg.au_id v) Pg.admin).
  destruct (existsb (is_pair (Pg.au_id v) Pg.admin) (Pg.user_roles d)) eqn:Hex;
    simpl; [reflexivity|].
  unfold Pg.user_roles_insert; simpl.
  fold (is_pair (Pg.au_id v) Pg.admin). rewrite Hex.
  rewrite (user_exists_elem v d Hv). reflexivity.
Qed.

End Roles.

Section Bootstrap.

(** C4. For an existing user whose e-mail address identifies the account,
    in a table that respects UNIQUE (user_id, role): two calls of
    [make_user_admin] with that address both return normally, the second
    leaves the database exactly as the first left it, and exactly one
    (user, admin) row is then in [user_roles]. *)
Theorem make_user_admin_idempotent (d : Pg.Database) (v : Pg.auth_users_row)
    (e : string) :
  v ∈ Pg.auth_users d →
  Pg.au_email v = Some e →
  email_identifies e (Pg.au_id v) d →
  Pg.user_roles_unique d →
  let r1 := Pg.make_user_admin (Some e) d in
  let r2 := Pg.make_user_admin (Some e) (snd r1) in
  fst r1 = inr tt ∧ fst r2 = inr tt ∧ snd r2 = snd r1
  ∧ Pg.count_role (Pg.au_id v) Pg.admin (snd r2) = 1%nat.
Proof.
  intros Hv He Hid Huniq r1 r2. subst r1 r2.
  rewrite (make_user_admin_run e v d Hv He Hid). simpl.
  destruct (existsb (is_pair (Pg.au_id v) Pg.admin) (Pg.user_roles d)) eqn:Hex.
  - rewrite (make_user_admin_run e v d Hv He Hid), Hex. simpl.
    repeat split. apply unique_pair_one_row; assumption.
  - set (d1 := Pg.set_user_roles _ d).
    assert (Hex1 : existsb (is_pair (Pg.au_id v) Pg.admin) (Pg.user_roles d1) = true).
    { subst d1; simpl. rewrite existsb_app; simpl.
      unfold is_pair at 2; simpl. rewrite !bool_decide_eq_true_2 by reflexivity.
      apply orb_true_r. }
    rewrite (make_user_admin_run e v d1); [|exact Hv|exact He|exact Hid].
    rewrite Hex1. simpl. repeat split.
    unfold Pg.count_role. fold (is_pair (Pg.au_id v) Pg.admin).
    subst d1; simpl. rewrite List.filter_app, length_app.
    rewrite (no_pair_no_rows _ _ _ Hex); simpl.
    unfold is_pair; simpl. rewrite !bool_decide_eq_true_2 by reflexivity.
    reflexivity.
Qed.

(** The scenario's admin, granted once more. *)
Lemma make_user_admin_idempotent_witness :
  let r1 := Pg.make_user_admin (Some "root@example.org") Scenario.signed_up in
  let r2 := Pg.make_user_admin (Some "root@example.org") (snd r1) in
  fst r1 = inr tt ∧ fst r2 = inr tt ∧ snd r2 = snd r1
  ∧ Pg.count_role "r007" Pg.admin (snd r2) = 1%nat.
Proof.
  apply (make_user_admin_idempotent Scenario.signed_up Scenario.root_row
           "root@example.org").
  - vm_compute. apply list_elem_of_further, list_elem_of_here.
  - reflexivity.
  - unfold email_identifies. apply (bool_decide_unpack _). vm_compute. exact I.
  - unfold Pg.user_roles_unique. apply (bool_decide_unpack _). vm_compute. exact I.
Defined.

End Bootstrap.

(* ===================================================================== *)
(** * The track library under its policies *)
(* ===================================================================== *)

Section Library.

Implicit Types (d : Pg.Database) (caller : option UUID) (w : AP.World).

Lemma set_tracks_same d : Pg.set_tracks (Pg.tracks d) d = d.
Proof. destruct d; reflexivity. Qed.

(** A delete whose policy fails sees no row: nothing goes, nothing is
    reported. *)
Lemma tracks_delete_hidden caller id d :
  Pg.policy_admin caller d = false → Pg.tracks_delete caller id d = (inr tt, d).
Proof.
  intros Hp. unfold Pg.tracks_delete. rewrite Hp.
  rewrite filter_all, set_tracks_same; [reflexivity|].
  intros r. rewrite andb_false_r. reflexivity.
Qed.

(** A delete whose policy passes removes exactly the rows with the id. *)
Lemma tracks_delete_admin caller id d :
  Pg.policy_admin caller d = true →
  Pg.tracks_delete caller id d =
    (inr tt,
     Pg.set_tracks
       (List.filter (fun r => negb (bool_decide (Pg.tr_id r = id))) (Pg.tracks d)) d).
Proof.
  intros Hp. unfold Pg.tracks_delete. rewrite Hp. do 2 f_equal.
  apply List.filter_ext. intros r. rewrite andb_true_r. reflexivity.
Qed.

Lemma tracks_insert_refused caller new d :
  Pg.policy_admin caller d = false → refused (Pg.tracks_insert caller new) d.
Proof.
  intros Hp. unfold refused, Pg.tracks_insert. rewrite Hp. simpl. auto.
Qed.

(** C2, as the code has it. For every caller without the admin role:
    an insert into [tracks] fails with the authorization error and leaves
    the table unchanged; a delete from [tracks] leaves the whole database
    unchanged and returns normally, with no error, because the DELETE
    policy is a USING filter that hides every row from the statement. *)
Theorem nonadmin_cannot_change_tracks caller d :
  lacks_admin caller d →
  (∀ new, refused (Pg.tracks_insert caller new) d)
  ∧ (∀ id, Pg.tracks_delete caller id d = (inr tt, d)).
Proof.
  intros Hl. apply policy_admin_false in Hl. split.
  - intros new. apply tracks_insert_refused, Hl.
  - intros id. apply tracks_delete_hidden, Hl.
Qed.

Lemma alice_lacks_admin : lacks_admin (Some "a11ce") (AP.db Scenario.with_rain).
Proof. unfold lacks_admin. apply (bool_decide_unpack _). vm_compute. exact I. Qed.

Lemma nonadmin_cannot_change_tracks_witness :
  (∀ new, refused (Pg.tracks_insert (Some "a11ce") new) (AP.db Scenario.with_rain))
  ∧ (∀ id, Pg.tracks_delete (Some "a11ce") id (AP.db Scenario.with_rain)
           = (inr tt, AP.db Scenario.with_rain)).
Proof.
  apply (nonadmin_cannot_change_tracks (Some "a11ce") (AP.db Scenario.with_rain)).
  unfold lacks_admin. apply (bool_decide_unpack _). vm_compute. exact I.
Defined.

(** C2 as stated fails on the Delete half: Alice, who holds only the
    [user] role, deletes "Rain"; the statement is not refused. *)
Lemma nonadmin_delete_not_refused :
  lacks_admin (Some "a11ce") (AP.db Scenario.with_rain)
  ∧ ¬ refused (Pg.tracks_delete (Some "a11ce") "t-rain") (AP.db Scenario.with_rain).
Proof.
  split; [exact alice_lacks_admin|].
  intros [Herr _]. vm_compute in Herr. discriminate Herr.
Qed.

End Library.

(* ===================================================================== *)
(** * Running handlers *)
(* ===================================================================== *)

Section Handlers.

Context {A B : Type}.
Implicit Types (w : AP.World) (m : AP.M A) (k : A → AP.M B).

Lemma wp_exec m (P : AP.World → Prop) w :
  wp m (fun _ w' => P w') w → P (AP.exec m w).
Proof. exact id. Qed.

Lemma wp_ret (a : A) (Q : A → AP.World → Prop) w : Q a w → wp (mret a) Q w.
Proof. exact id. Qed.

Lemma wp_bind m k (Q : B → AP.World → Prop) w :
  wp m (fun a w' => wp (k a) Q w') w → wp (m ≫= k) Q w.
Proof.
  unfold wp, mbind, AP.M_bind. destruct (m w) as [a w']. exact id.
Qed.

Lemma wp_get (f : AP.World → A) (Q : A → AP.World → Prop) w :
  Q (f w) w → wp (AP.get f) Q w.
Proof. exact id. Qed.

Lemma wp_modify (f : AP.World → AP.World) (Q : unit → AP.World → Prop) w :
  Q tt (f w) → wp (AP.modify f) Q w.
Proof. exact id. Qed.

(** The three ways a round trip ends. *)
Lemma wp_supabase (rq : AP.Request) (stmt : option UUID → Pg.Sql A)
    (Q : AP.PostgrestError + A → AP.World → Prop) w :
  (AP.online w = false → Q (inl AP.fetch_failed) (sent rq w)) →
  (∀ e d', AP.online w = true →
           stmt (AP.auth_uid w) (AP.db w) = (inl e, d') →
           Q (inl (AP.sql_error e)) (sent rq w)) →
  (∀ a d', AP.online w = true →
           stmt (AP.auth_uid w) (AP.db w) = (inr a, d') →
           Q (inr a) (AP.set_db d' (sent rq w))) →
  wp (AP.supabase rq stmt) Q w.
Proof.
  intros Hoff Herr Hok. unfold wp, AP.supabase.
  destruct (AP.online w) eqn:Hon; [|exact (Hoff eq_refl)].
  destruct (stmt (AP.auth_uid w) (AP.db w)) as [[e|a] d'] eqn:Hs.
  - exact (Herr e d' eq_refl eq_refl).
  - exact (Hok a d' eq_refl eq_refl).
Qed.

End Handlers.

(** One step of a run: the head of the handler decides the rule. *)
Ltac wp_step :=
  lazymatch goal with
  | |- wp (mret _) _ _ => apply wp_ret
  | |- wp (_ ≫= _) _ _ => apply wp_bind
  | |- wp (AP.get _) _ _ => apply wp_get
  | |- wp (AP.modify _) _ _ => apply wp_modify
  | |- wp (AP.console_error _) _ _ => apply wp_modify
  | |- wp (AP.toast _) _ _ => apply wp_modify
  | |- wp (AP.setTracks _) _ _ => apply wp_modify
  | |- wp (AP.setTrackSettings _) _ _ => apply wp_modify
  | |- wp (AP.setLoading _) _ _ => apply wp_modify
  end.

Ltac wp_steps := repeat (cbv beta iota; wp_step); cbv beta iota.

Section HandlerSpecs.

Implicit Types (w : AP.World) (d : Pg.Database).

Lemma wp_mono {A} (m : AP.M A) (Q Q' : A → AP.World → Prop) w :
  wp m Q w → (∀ a w', Q a w' → Q' a w') → wp m Q' w.
Proof. unfold wp. intros H HQ. apply HQ, H. Qed.

Lemma same_session_refl w : same_session w w.
Proof. repeat split. Qed.

(** [fetchTracks] reads the backend and touches only the list, the
    spinner and the notifications. *)
Lemma fetchTracks_spec w :
  wp AP.fetchTracks
     (fun _ w' =>
        AP.db w' = AP.db w ∧ AP.trackSettings w' = AP.trackSettings w
        ∧ same_session w w'
        ∧ (AP.online w = true → AP.tracks w' = listed (AP.db w))
        ∧ (AP.tracks w' = AP.tracks w ∨ AP.tracks w' = listed (AP.db w))) w.
Proof.
  unfold AP.fetchTracks. wp_step. apply wp_supabase.
  - intros Hoff. wp_steps. simpl. rewrite Hoff.
    repeat split; [discriminate|left; reflexivity].
  - intros e d' _ [=].
  - intros a d' Hon [= <- <-]. wp_steps. simpl.
    destruct (AP.db w); repeat split; auto.
Qed.

(** [handleDeleteTrack]: the one statement it sends, and the re-fetch. *)
Lemma handleDeleteTrack_spec (id : string) w :
  wp (AP.handleDeleteTrack id)
     (fun _ w' =>
        AP.trackSettings w' = AP.trackSettings w ∧ same_session w w'
        ∧ (AP.db w' = AP.db w
           ∨ AP.db w' = (Pg.tracks_delete (AP.auth_uid w) id (AP.db w)).2)
        ∧ (AP.online w = true →
           AP.db w' = (Pg.tracks_delete (AP.auth_uid w) id (AP.db w)).2
           ∧ AP.tracks w' = listed (AP.db w'))) w.
Proof.
  unfold AP.handleDeleteTrack. wp_step. apply wp_supabase.
  - intros Hoff. wp_steps. simpl. rewrite Hoff.
    split_and!; [reflexivity|repeat split|left; reflexivity|discriminate].
  - intros e d' _ [=].
  - intros [] d' Hon Hdel. wp_steps.
    eapply wp_mono; [apply fetchTracks_spec|].
    intros _ w' (Hdb & Hts & Hs & Hl & _). rewrite Hdel.
    unfold same_session in *. simpl in *.
    split_and!; try tauto.
    intros _. split; [exact Hdb|]. rewrite Hdb. exact (Hl Hon).
Qed.

End HandlerSpecs.

(* ===================================================================== *)
(** * Deleting a track *)
(* ===================================================================== *)

Section Delete.

Implicit Types (w : AP.World) (id : string).

Lemma kept_by_delete id (l : list Pg.tracks_row) (r : Pg.tracks_row) :
  r ∈ List.filter (fun r => negb (bool_decide (Pg.tr_id r = id))) l
  ↔ r ∈ l ∧ Pg.tr_id r ≠ id.
Proof.
  rewrite !list_elem_of_In, filter_In, negb_true_iff, bool_decide_eq_false.
  reflexivity.
Qed.

(** C1, as the code has it. For every track id, when an admin's page
    runs [handleDeleteTrack] with the backend reachable, no row with that
    id is left in [tracks], every other row stays, and the storage bucket
    is exactly as before: the stored audio object is not removed. *)
Theorem delete_removes_row_keeps_object w id :
  AP.online w = true →
  Pg.policy_admin (AP.auth_uid w) (AP.db w) = true →
  let w' := AP.exec (AP.handleDeleteTrack id) w in
  Forall (fun r => Pg.tr_id r ≠ id) (Pg.tracks (AP.db w'))
  ∧ (∀ r, r ∈ Pg.tracks (AP.db w) → Pg.tr_id r ≠ id → r ∈ Pg.tracks (AP.db w'))
  ∧ Pg.storage_objects (AP.db w') = Pg.storage_objects (AP.db w).
Proof.
  intros Hon Hadm w'. subst w'.
  pose proof (wp_exec _ _ _ (handleDeleteTrack_spec id w)) as (_ & _ & _ & Hdb).
  destruct (Hdb Hon) as [-> _].
  rewrite (tracks_delete_admin _ _ _ Hadm). simpl. split_and!.
  - apply Forall_forall. intros r Hr. apply kept_by_delete in Hr. tauto.
  - intros r Hr Hne. apply kept_by_delete. tauto.
  - reflexivity.
Qed.

Lemma delete_removes_row_keeps_object_witness :
  let w' := AP.exec (AP.handleDeleteTrack "t-rain") Scenario.with_rain in
  Forall (fun r => Pg.tr_id r ≠ "t-rain") (Pg.tracks (AP.db w'))
  ∧ (∀ r, r ∈ Pg.tracks (AP.db Scenario.with_rain) →
          Pg.tr_id r ≠ "t-rain" → r ∈ Pg.tracks (AP.db w'))
  ∧ Pg.storage_objects (AP.db w') = Pg.storage_objects (AP.db Scenario.with_rain).
Proof.
  apply (delete_removes_row_keeps_object Scenario.with_rain "t-rain");
    vm_compute; reflexivity.
Defined.

(** C1 as stated fails: the admin deletes "Rain", uploaded a moment
    before; the object its [file_url] points to is still in the bucket. *)
Lemma delete_leaves_object :
  Scenario.rain_row ∈ Pg.tracks (AP.db Scenario.with_rain)
  ∧ ¬ row_and_object_gone Scenario.with_rain Scenario.rain_row.
Proof.
  split; [vm_compute; left|].
  intros [_ Hobj]. rewrite Forall_forall in Hobj.
  specialize (Hobj Scenario.rain_object).
  assert (Hin : Scenario.rain_object ∈
                Pg.storage_objects
                  (AP.db (AP.exec (AP.handleDeleteTrack "t-rain") Scenario.with_rain)))
    by (vm_compute; left).
  specialize (Hobj Hin). vm_compute in Hobj. discriminate Hobj.
Qed.

Lemma listed_ids (d : Pg.Database) id :
  id ∈ AP.id <$> listed d → ∃ r, r ∈ Pg.tracks d ∧ Pg.tr_id r = id.
Proof.
  unfold listed. rewrite <- list_fmap_compose.
  intros (r & -> & Hr)%list_elem_of_fmap.
  rewrite merge_sort_Permutation in Hr. exists r. split; [exact Hr|reflexivity].
Qed.

(** What is drawn depends on the settings only at the ids of the listed
    tracks. *)
Lemma render_agree w (ts : TrackSettings) :
  (∀ t, t ∈ AP.tracks w → ts !! AP.id t = AP.trackSettings w !! AP.id t) →
  AP.render (AP.set_trackSettings ts w) = AP.render w.
Proof.
  intros Hagree. unfold AP.render; simpl.
  destruct (AP.loading w); [reflexivity|]. f_equal.
  case_bool_decide; [reflexivity|]. f_equal.
  apply list_fmap_ext. intros i t Ht.
  unfold AP.props; simpl. rewrite (Hagree t); [reflexivity|].
  apply list_elem_of_lookup. eauto.
Qed.

(** C9. For every page and track id, [handleDeleteTrack] leaves the table
    of preference documents exactly as it was (so every user's document
    keeps its entry for the deleted id) and leaves the page's own map
    alone; when the delete takes effect the id is no longer listed, and
    what the page draws does not depend on entries of unlisted ids. *)
Theorem delete_does_not_cascade w id :
  let w' := AP.exec (AP.handleDeleteTrack id) w in
  Pg.user_preferences (AP.db w') = Pg.user_preferences (AP.db w)
  ∧ AP.trackSettings w' = AP.trackSettings w
  ∧ (AP.online w = true → Pg.policy_admin (AP.auth_uid w) (AP.db w) = true →
     id ∉ AP.id <$> AP.tracks w')
  ∧ (∀ ts : TrackSettings,
       (∀ t, t ∈ AP.tracks w' → ts !! AP.id t = AP.trackSettings w' !! AP.id t) →
       AP.render (AP.set_trackSettings ts w') = AP.render w').
Proof.
  intros w'. subst w'.
  pose proof (wp_exec _ _ _ (handleDeleteTrack_spec id w)) as (Hts & _ & Hdb & Hon).
  split_and!.
  - destruct Hdb as [->| ->]; reflexivity.
  - exact Hts.
  - intros Hnet Hadm. destruct (Hon Hnet) as [Hd ->]. rewrite Hd.
    rewrite (tracks_delete_admin _ _ _ Hadm). simpl.
    intros (r & Hr & Hid)%listed_ids. simpl in Hr.
    apply kept_by_delete in Hr. tauto.
  - apply render_agree.
Qed.

End Delete.

(* ===================================================================== *)
(** * The preference store *)
(* ===================================================================== *)

Section Preferences.

Implicit Types (w : AP.World) (d : Pg.Database) (u : AP.User)
  (m : TrackSettings) (l : list Pg.user_preferences_row).

(** Under the ownership policy the caller's SELECT sees the rows of the
    caller. *)
Lemma own_rows (uid : UUID) l :
  List.filter (fun r => Pg.policy_own (Some uid) r
                        && bool_decide (Pg.up_user_id r = uid)) l
  = List.filter (of_user uid) l.
Proof.
  apply List.filter_ext. intros r. unfold Pg.policy_own, of_user; simpl.
  apply andb_diag.
Qed.

Lemma replace_absent (uid : UUID) (new : Pg.user_preferences_row) l :
  existsb (of_user uid) l = false →
  (fun r => if bool_decide (Pg.up_user_id r = uid) then new else r) <$> l = l.
Proof.
  induction l as [|r l IH]; csimpl; [reflexivity|].
  unfold of_user at 1. intros [Hr Hl]%orb_false_elim.
  rewrite Hr, (IH Hl). reflexivity.
Qed.

Lemma unique_absent (uid : UUID) (r : Pg.user_preferences_row) l :
  Pg.up_user_id r = uid → Pg.up_user_id r ∉ Pg.up_user_id <$> l →
  existsb (of_user uid) l = false.
Proof.
  intros <- Hfresh. apply not_true_is_false. rewrite existsb_exists.
  intros (x & Hin & Hx). apply bool_decide_eq_true in Hx.
  apply Hfresh. rewrite <- Hx. apply list_elem_of_fmap_2, list_elem_of_In, Hin.
Qed.

(** ON CONFLICT DO UPDATE on a table with at most one row per user:
    afterwards the user's rows are the one new row. *)
Lemma replace_present (uid : UUID) (new : Pg.user_preferences_row) l :
  Pg.up_user_id new = uid →
  NoDup (Pg.up_user_id <$> l) →
  existsb (of_user uid) l = true →
  List.filter (of_user uid)
    ((fun r => if bool_decide (Pg.up_user_id r = uid) then new else r) <$> l)
  = [new].
Proof.
  intros Hnew. induction l as [|r l IH]; csimpl; [discriminate|].
  rewrite NoDup_cons. intros [Hfresh Hnd].
  unfold of_user at 1. case_bool_decide as Hr; simpl.
  - intros _. unfold of_user at 1. rewrite bool_decide_eq_true_2 by exact Hnew.
    pose proof (unique_absent uid r l Hr Hfresh) as Habs.
    rewrite (replace_absent uid new l Habs), (filter_none _ _ Habs).
    reflexivity.
  - intros Hex. unfold of_user at 1. rewrite bool_decide_eq_false_2 by exact Hr.
    exact (IH Hnd Hex).
Qed.

Lemma replace_keys (uid : UUID) (new : Pg.user_preferences_row) l :
  Pg.up_user_id new = uid →
  Pg.up_user_id <$>
    ((fun r => if bool_decide (Pg.up_user_id r = uid) then new else r) <$> l)
  = Pg.up_user_id <$> l.
Proof.
  intros Hnew. induction l as [|r l IH]; csimpl; [reflexivity|].
  rewrite IH. case_bool_decide; congruence.
Qed.

(** The upsert of one's own row succeeds, and stores it as the only row
    of the user. *)
Lemma upsert_stores u m (t : Z) d :
  Pg.user_preferences_unique d →
  Pg.user_exists (AP.user_id u) d = true →
  ∃ d', Pg.user_preferences_upsert (Some (AP.user_id u)) (sent_row u m t) d
        = (inr tt, d')
        ∧ List.filter (of_user (AP.user_id u)) (Pg.user_preferences d')
          = [sent_row u m t]
        ∧ Pg.user_preferences_unique d'.
Proof.
  intros Huniq Hex. unfold Pg.user_preferences_upsert, Pg.policy_own; simpl.
  rewrite bool_decide_eq_true_2 by reflexivity; simpl.
  fold (of_user (AP.user_id u)).
  destruct (existsb (of_user (AP.user_id u)) (Pg.user_preferences d)) eqn:Hrow.
  - eexists; split; [reflexivity|]. unfold Pg.user_preferences_unique; simpl.
    split.
    + apply replace_present; [reflexivity|exact Huniq|exact Hrow].
    + rewrite (replace_keys (AP.user_id u)) by reflexivity. exact Huniq.
  - rewrite Hex; simpl. eexists; split; [reflexivity|].
    unfold Pg.user_preferences_unique; simpl. split.
    + rewrite List.filter_app, (filter_none _ _ Hrow); simpl.
      unfold of_user; simpl. rewrite bool_decide_eq_true_2 by reflexivity.
      reflexivity.
    + rewrite fmap_app. apply NoDup_app. split; [exact Huniq|]. split.
      * intros x Hx [->|[]%elem_of_nil]%elem_of_cons.
        apply list_elem_of_fmap in Hx as (r & Hr & Hin).
        pose proof (existsb_false_elem _ _ r Hrow Hin) as Hf.
        apply bool_decide_eq_false in Hf. simpl in Hr. congruence.
      * apply NoDup_singleton.
Qed.

(** [savePreferences] with a session: one upsert leaves the client, the
    page's own state stays, and the backend either keeps its state or has
    run the upsert. *)
Lemma savePreferences_spec u m w :
  AP.user w = Some u →
  wp (AP.savePreferences m)
     (fun _ w' =>
        AP.trackSettings w' = AP.trackSettings w ∧ AP.tracks w' = AP.tracks w
        ∧ same_session w w'
        ∧ AP.requests w' =
            AP.requests w ++ [AP.user_preferences_upsert (AP.user_id u) m (AP.now w)]
        ∧ (AP.db w' = AP.db w
           ∨ Pg.user_preferences_upsert (Some (AP.user_id u))
               (sent_row u m (AP.now w)) (AP.db w) = (inr tt, AP.db w'))
        ∧ (AP.online w = true →
           ∀ d', Pg.user_preferences_upsert (Some (AP.user_id u))
                   (sent_row u m (AP.now w)) (AP.db w) = (inr tt, d') →
                 AP.db w' = d' ∧ AP.console w' = AP.console w)) w.
Proof.
  intros Hu. unfold AP.savePreferences. wp_steps. rewrite Hu. wp_steps.
  apply wp_supabase; unfold AP.auth_uid; rewrite ?Hu; simpl.
  - intros Hoff. wp_steps. simpl. rewrite Hoff.
    split_and!; try reflexivity; try solve [repeat split]; [left; reflexivity|discriminate].
  - intros e d' Hon Hups. wp_steps. simpl.
    split_and!; try reflexivity; try solve [repeat split]; [left; reflexivity|].
    intros _ d'' Hok. unfold sent_row in Hok. congruence.
  - intros [] d' Hon Hups. wp_steps. simpl.
    split_and!; try reflexivity; try solve [repeat split]; [right; exact Hups|].
    intros _ d'' Hok. unfold sent_row in Hok. split; congruence.
Qed.

(** [fetchPreferences] with a session: the backend is only read; the
    page's map either stays or becomes the document of a row of the
    user. *)
Lemma fetchPreferences_spec u w :
  AP.user w = Some u →
  wp AP.fetchPreferences
     (fun _ w' =>
        AP.db w' = AP.db w ∧ AP.tracks w' = AP.tracks w ∧ same_session w w'
        ∧ (AP.trackSettings w' = AP.trackSettings w
           ∨ ∃ r, r ∈ Pg.user_preferences (AP.db w)
                  ∧ Pg.up_user_id r = AP.user_id u
                  ∧ Pg.up_track_settings r = Some (AP.trackSettings w'))
        ∧ (AP.online w = true →
           ∀ r m, List.filter (of_user (AP.user_id u))
                    (Pg.user_preferences (AP.db w)) = [r] →
                  Pg.up_track_settings r = Some m →
                  AP.trackSettings w' = m ∧ AP.console w' = AP.console w)) w.
Proof.
  intros Hu. unfold AP.fetchPreferences. wp_steps. rewrite Hu. wp_steps.
  apply wp_supabase; unfold AP.auth_uid; rewrite ?Hu; simpl.
  - intros Hoff. wp_steps. simpl. rewrite Hoff.
    split_and!; try reflexivity; try solve [repeat split]; [left; reflexivity|discriminate].
  - intros e d' _ [=].
  - intros rows d' Hon Hsel. unfold Pg.user_preferences_select in Hsel.
    rewrite own_rows in Hsel. injection Hsel as <- <-.
    destruct (List.filter (of_user (AP.user_id u)) (Pg.user_preferences (AP.db w)))
      as [|r [|r' rows]] eqn:Hrows; simpl.
    + wp_steps. simpl. destruct (AP.db w).
      split_and!; try reflexivity; try solve [repeat split]; [left; reflexivity|]. intros _ r m [=].
    + assert (Hr : r ∈ Pg.user_preferences (AP.db w) ∧ Pg.up_user_id r = AP.user_id u).
      { assert (Hin : In r (List.filter (of_user (AP.user_id u))
                              (Pg.user_preferences (AP.db w))))
          by (rewrite Hrows; left; reflexivity).
        apply filter_In in Hin as [Hin Ht]. split; [apply list_elem_of_In, Hin|].
        apply bool_decide_eq_true in Ht. exact Ht. }
      destruct (Pg.up_track_settings r) as [ts|] eqn:Hts; wp_steps; simpl;
        destruct (AP.db w); simpl in *.
      * split_and!; try reflexivity; try solve [repeat split]; [right; exists r; tauto|].
        intros _ r0 m [= <-] Hm. split; congruence.
      * split_and!; try reflexivity; try solve [repeat split]; [left; reflexivity|].
        intros _ r0 m [= <-] Hm. congruence.
    + wp_steps. simpl. destruct (AP.db w).
      split_and!; try reflexivity; try solve [repeat split]; [left; reflexivity|]. intros _ r0 m [=].
Qed.

(** C10. For every map and every page with no session, [savePreferences]
    returns having changed nothing at all: no request leaves the client,
    the backend, the console and the notifications are as before; and
    [fetchPreferences] likewise returns without sending a request. *)
Theorem no_session_no_round_trip w m :
  AP.user w = None →
  AP.savePreferences m w = (tt, w) ∧ AP.fetchPreferences w = (tt, w).
Proof.
  intros Hu. unfold AP.savePreferences, AP.fetchPreferences, AP.get.
  unfold mbind, AP.M_bind. rewrite Hu. split; reflexivity.
Qed.

Lemma no_session_no_round_trip_witness :
  AP.savePreferences {["t-rain" := {| volume := 30; enabled := true |}]}
    Scenario.visitor_page = (tt, Scenario.visitor_page)
  ∧ AP.fetchPreferences Scenario.visitor_page = (tt, Scenario.visitor_page).
Proof.
  apply (no_session_no_round_trip Scenario.visitor_page). reflexivity.
Defined.

(** C3. For every signed-in user with an account, every map and every
    reachable backend whose preference table has one row per user at
    most: [savePreferences map] followed by [fetchPreferences], with
    nothing in between, leaves the page holding exactly [map]; the stored
    document is [map] and neither call logs an error. *)
Theorem upsert_then_fetch w u m :
  AP.user w = Some u →
  AP.online w = true →
  Pg.user_exists (AP.user_id u) (AP.db w) = true →
  Pg.user_preferences_unique (AP.db w) →
  let w1 := AP.exec (AP.savePreferences m) w in
  let w2 := AP.exec AP.fetchPreferences w1 in
  AP.trackSettings w2 = m
  ∧ Pg.stored_settings (AP.user_id u) (AP.db w2) = Some m
  ∧ AP.console w2 = AP.console w.
Proof.
  intros Hu Hon Hex Huniq w1 w2.
  destruct (upsert_stores u m (AP.now w) (AP.db w) Huniq Hex) as (d' & Hups & Hrow & _).
  pose proof (wp_exec _ _ _ (savePreferences_spec u m w Hu))
    as (_ & _ & Hs1 & _ & _ & Hok). fold w1 in Hs1, Hok.
  destruct (Hok Hon d' Hups) as [Hdb1 Hc1].
  destruct Hs1 as (Hu1 & _ & Hon1 & _). rewrite Hu in Hu1. rewrite Hon in Hon1.
  pose proof (wp_exec _ _ _ (fetchPreferences_spec u w1 Hu1))
    as (Hdb2 & _ & _ & _ & Hget). fold w2 in Hdb2, Hget.
  rewrite Hdb1 in Hget.
  destruct (Hget Hon1 _ m Hrow eq_refl) as [Hts Hc2].
  split_and!; [exact Hts| |congruence].
  rewrite Hdb2, Hdb1. unfold Pg.stored_settings. fold (of_user (AP.user_id u)).
  rewrite Hrow. reflexivity.
Qed.

Lemma upsert_then_fetch_witness :
  let m : TrackSettings := {["t-rain" := {| volume := 30; enabled := true |}]} in
  let w1 := AP.exec (AP.savePreferences m) Scenario.alice_page in
  let w2 := AP.exec AP.fetchPreferences w1 in
  AP.trackSettings w2 = m
  ∧ Pg.stored_settings "a11ce" (AP.db w2) = Some m
  ∧ AP.console w2 = AP.console Scenario.alice_page.
Proof.
  apply (upsert_then_fetch Scenario.alice_page Scenario.alice).
  - reflexivity.
  - reflexivity.
  - vm_compute. reflexivity.
  - unfold Pg.user_preferences_unique. apply (bool_decide_unpack _).
    vm_compute. exact I.
Defined.

End Preferences.

(* ===================================================================== *)
(** * Volume and enabled changes *)
(* ===================================================================== *)

Section Changes.

Implicit Types (w : AP.World) (d : Pg.Database) (u : AP.User)
  (m : TrackSettings) (id : string).

(** The common tail of the two change handlers. *)
Lemma save_and_set_spec u m w :
  AP.user w = Some u →
  wp (AP.savePreferences m;; AP.setTrackSettings m)
     (fun _ w' =>
        AP.trackSettings w' = m ∧ AP.tracks w' = AP.tracks w
        ∧ same_session w w'
        ∧ AP.requests w' =
            AP.requests w ++ [AP.user_preferences_upsert (AP.user_id u) m (AP.now w)]
        ∧ (AP.db w' = AP.db w
           ∨ Pg.user_preferences_upsert (Some (AP.user_id u))
               (sent_row u m (AP.now w)) (AP.db w) = (inr tt, AP.db w'))
        ∧ (AP.online w = true →
           ∀ d', Pg.user_preferences_upsert (Some (AP.user_id u))
                   (sent_row u m (AP.now w)) (AP.db w) = (inr tt, d') →
                 AP.db w' = d')) w.
Proof.
  intros Hu. wp_step.
  eapply wp_mono; [apply (savePreferences_spec u m w Hu)|].
  intros _ w' (Hts & Htr & Hs & Hrq & Hdb & Hok). wp_steps. simpl.
  unfold same_session in *; simpl.
  split_and!; try tauto. intros Hon d' Hups. apply (Hok Hon d' Hups).
Qed.

Lemma handleVolumeChange_run id (v : Z) w :
  AP.exec (AP.handleVolumeChange id v) w
  = (let new : TrackSettings :=
       <[id := {| volume := v;
                  enabled := default true (enabled <$> AP.trackSettings w !! id) |}]>
         (AP.trackSettings w) in
     AP.exec (AP.savePreferences new;; AP.setTrackSettings new) w).
Proof. reflexivity. Qed.

Lemma handleEnabledChange_run id (b : bool) w :
  AP.exec (AP.handleEnabledChange id b) w
  = (let new : TrackSettings :=
       <[id := {| volume := default 50 (volume <$> AP.trackSettings w !! id);
                  enabled := b |}]>
         (AP.trackSettings w) in
     AP.exec (AP.savePreferences new;; AP.setTrackSettings new) w).
Proof. reflexivity. Qed.

(** What one change does to the page and to the store, for the entry
    [s] the handler builds. *)
Lemma change_run u id (s : TrackSetting) w :
  AP.user w = Some u →
  let new : TrackSettings := <[id := s]> (AP.trackSettings w) in
  let w' := AP.exec (AP.savePreferences new;; AP.setTrackSettings new) w in
  AP.trackSettings w' = new
  ∧ AP.requests w' =
      AP.requests w ++ [AP.user_preferences_upsert (AP.user_id u) new (AP.now w)]
  ∧ (∀ j, j ≠ id → new !! j = AP.trackSettings w !! j)
  ∧ new !! id = Some s
  ∧ (AP.online w = true →
     Pg.user_exists (AP.user_id u) (AP.db w) = true →
     Pg.user_preferences_unique (AP.db w) →
     Pg.stored_settings (AP.user_id u) (AP.db w') = Some new).
Proof.
  intros Hu new w'.
  pose proof (wp_exec _ _ _ (save_and_set_spec u new w Hu))
    as (Hts & _ & _ & Hrq & _ & Hok). fold w' in Hts, Hrq, Hok.
  split_and!; [exact Hts|exact Hrq| | |].
  - intros j Hj. subst new. apply lookup_insert_ne. congruence.
  - subst new. apply lookup_insert_eq.
  - intros Hon Hex Huniq.
    destruct (upsert_stores u new (AP.now w) (AP.db w) Huniq Hex) as (d' & Hups & Hrow & _).
    rewrite (Hok Hon d' Hups). unfold Pg.stored_settings.
    fold (of_user (AP.user_id u)). rewrite Hrow. reflexivity.
Qed.

(** C6. For every signed-in page and track id: a volume change and an
    enabled change each send one upsert whose map is the page's new map;
    that map has every other track's entry as before and, at the changed
    id, the new value together with the other field of the previous entry,
    or [enabled = true] (volume change) and [volume = 50] (enabled change)
    when there was no entry.  With the backend reachable, this map is the
    document stored afterwards. *)
Theorem change_replaces_one_entry w u id :
  AP.user w = Some u →
  let prev := AP.trackSettings w in
  (∀ v : Z,
     let w' := AP.exec (AP.handleVolumeChange id v) w in
     let new := AP.trackSettings w' in
     AP.requests w' =
       AP.requests w ++ [AP.user_preferences_upsert (AP.user_id u) new (AP.now w)]
     ∧ (∀ j, j ≠ id → new !! j = prev !! j)
     ∧ new !! id =
         Some {| volume := v;
                 enabled := match prev !! id with
                            | Some old => enabled old
                            | None => true
                            end |}
     ∧ (AP.online w = true →
        Pg.user_exists (AP.user_id u) (AP.db w) = true →
        Pg.user_preferences_unique (AP.db w) →
        Pg.stored_settings (AP.user_id u) (AP.db w') = Some new))
  ∧ (∀ b : bool,
     let w' := AP.exec (AP.handleEnabledChange id b) w in
     let new := AP.trackSettings w' in
     AP.requests w' =
       AP.requests w ++ [AP.user_preferences_upsert (AP.user_id u) new (AP.now w)]
     ∧ (∀ j, j ≠ id → new !! j = prev !! j)
     ∧ new !! id =
         Some {| volume := match prev !! id with
                           | Some old => volume old
                           | None => 50
                           end;
                 enabled := b |}
     ∧ (AP.online w = true →
        Pg.user_exists (AP.user_id u) (AP.db w) = true →
        Pg.user_preferences_unique (AP.db w) →
        Pg.stored_settings (AP.user_id u) (AP.db w') = Some new)).
Proof.
  intros Hu prev. split.
  - intros v w' new. subst w' new.
    rewrite handleVolumeChange_run. cbv zeta.
    destruct (change_run u id
                {| volume := v;
                   enabled := default true (enabled <$> AP.trackSettings w !! id) |}
                w Hu) as (Hts & Hrq & Hother & Hid & Hst).
    rewrite Hts. split_and!; [exact Hrq|exact Hother| |exact Hst].
    rewrite Hid. subst prev. destruct (AP.trackSettings w !! id); reflexivity.
  - intros b w' new. subst w' new.
    rewrite handleEnabledChange_run. cbv zeta.
    destruct (change_run u id
                {| volume := default 50 (volume <$> AP.trackSettings w !! id);
                   enabled := b |}
                w Hu) as (Hts & Hrq & Hother & Hid & Hst).
    rewrite Hts. split_and!; [exact Hrq|exact Hother| |exact Hst].
    rewrite Hid. subst prev. destruct (AP.trackSettings w !! id); reflexivity.
Qed.

(** Alice, whose document is still empty, sets Rain to 30. *)
Lemma change_replaces_one_entry_witness :
  AP.user Scenario.alice_page = Some Scenario.alice
  ∧ AP.trackSettings
      (AP.exec (AP.handleVolumeChange "t-rain" 30) Scenario.alice_page)
    !! "t-rain" = Some {| volume := 30; enabled := true |}.
Proof.
  split; [reflexivity|].
  destruct (change_replaces_one_entry Scenario.alice_page Scenario.alice "t-rain"
              eq_refl) as [Hvol _].
  destruct (Hvol 30) as (_ & _ & Hid & _). exact Hid.
Defined.

End Changes.

(* ===================================================================== *)
(** * Tracks the user has not touched *)
(* ===================================================================== *)

Section Untouched.

Implicit Types (w : AP.World) (d : Pg.Database) (u : AP.User)
  (m : TrackSettings) (id : string).







End Untouched.

(* ===================================================================== *)
(** * The control of one track *)
(* ===================================================================== *)

Section Control.

Implicit Types (p : AudioTrack.Props) (s : AudioTrack.State).









End Control.

(* ===================================================================== *)
(** * The constraints are kept *)
(* ===================================================================== *)

Section Constraints.

Implicit Types (d : Pg.Database).

Lemma NoDup_snoc {A K} (f : A → K) (l : list A) (x : A) :
  NoDup (f <$> l) → (∀ y, y ∈ l → f y ≠ f x) → NoDup (f <$> (l ++ [x])).
Proof.
  intros Hnd Hfresh. rewrite fmap_app. apply NoDup_app. split; [exact Hnd|].
  split; [|apply NoDup_singleton].
  intros k Hk [->|[]%elem_of_nil]%elem_of_cons.
  apply list_elem_of_fmap in Hk as (y & Hy & Hin). exact (Hfresh y Hin (eq_sym Hy)).
Qed.

Lemma NoDup_filter_keys {A K} (f : A → K) (p : A → bool) (l : list A) :
  NoDup (f <$> l) → NoDup (f <$> List.filter p l).
Proof.
  induction l as [|x l IH]; csimpl; [auto|].
  rewrite NoDup_cons. intros [Hx Hnd]. destruct (p x); csimpl; [|auto].
  apply NoDup_cons. split; [|auto].
  intros (y & Hy & Hin)%list_elem_of_fmap. apply Hx. rewrite Hy.
  apply list_elem_of_fmap_2. apply list_elem_of_In in Hin.
  apply filter_In in Hin as [Hin _]. apply list_elem_of_In, Hin.
Qed.

Lemma Forall_filter_keep {A} (P : A → Prop) (p : A → bool) (l : list A) :
  Forall P l → Forall P (List.filter p l).
Proof.
  rewrite !Forall_forall. intros H x Hx. apply H.
  apply list_elem_of_In in Hx. apply filter_In in Hx as [Hx _].
  apply list_elem_of_In, Hx.
Qed.

Lemma user_exists_same d d' (x : UUID) :
  Pg.auth_users d' = Pg.auth_users d → Pg.user_exists x d' = Pg.user_exists x d.
Proof. unfold Pg.user_exists. intros ->. reflexivity. Qed.

Lemma user_exists_grow d d' (new : Pg.auth_users_row) (x : UUID) :
  Pg.auth_users d' = Pg.auth_users d ++ [new] →
  Pg.user_exists x d = true → Pg.user_exists x d' = true.
Proof.
  unfold Pg.user_exists. intros -> H. rewrite existsb_app, H. reflexivity.
Qed.

Lemma fk_same {A} (f : A → UUID) (l : list A) d d' :
  Pg.auth_users d' = Pg.auth_users d →
  Forall (fun r => Pg.user_exists (f r) d = true) l →
  Forall (fun r => Pg.user_exists (f r) d' = true) l.
Proof.
  intros Hu H. eapply Forall_impl; [exact H|]. intros r Hr; simpl in *.
  rewrite (user_exists_same d d'); assumption.
Qed.

Lemma fk_grow {A} (f : A → UUID) (l : list A) d d' (new : Pg.auth_users_row) :
  Pg.auth_users d' = Pg.auth_users d ++ [new] →
  Forall (fun r => Pg.user_exists (f r) d = true) l →
  Forall (fun r => Pg.user_exists (f r) d' = true) l.
Proof.
  intros Hu H. eapply Forall_impl; [exact H|]. intros r Hr; simpl in *.
  apply (user_exists_grow d d' new); assumption.
Qed.

(** A proof that a database is consistent when only some tables differ
    from a consistent one: the goals of the tables that are the same
    close by themselves. *)
Ltac consistent_frame Hc d0 :=
  destruct Hc; constructor;
  unfold Pg.user_roles_unique, Pg.user_preferences_unique in *;
  try (apply (fk_same _ _ d0); [reflexivity|]);
  try assumption.

Lemma user_roles_insert_consistent (new : Pg.user_roles_row) d :
  consistent d → consistent (Pg.user_roles_insert new d).2.
Proof.
  intros Hc. unfold Pg.user_roles_insert.
  destruct (existsb _ (Pg.user_roles d)) eqn:Hex; [exact Hc|].
  destruct (Pg.user_exists (Pg.ur_user_id new) d) eqn:Hu; [|exact Hc].
  simpl. consistent_frame Hc d; simpl.
  - apply NoDup_snoc; [assumption|]. intros y Hy Heq.
    pose proof (existsb_false_elem _ _ y Hex Hy) as Hf. simpl in Hf.
    injection Heq as H1 H2.
    rewrite !bool_decide_eq_true_2 in Hf by assumption. discriminate Hf.
  - apply Forall_app. split; [assumption|]. apply Forall_singleton. exact Hu.
Qed.

Lemma profiles_insert_consistent (new : Pg.profiles_row) d :
  consistent d → consistent (Pg.profiles_insert new d).2.
Proof.
  intros Hc. unfold Pg.profiles_insert.
  destruct (existsb _ (Pg.profiles d)) eqn:Hex; [exact Hc|].
  destruct (Pg.user_exists (Pg.pr_user_id new) d) eqn:Hu; [|exact Hc].
  simpl. consistent_frame Hc d; simpl.
  - apply NoDup_snoc; [assumption|]. intros y Hy Heq.
    pose proof (existsb_false_elem _ _ y Hex Hy) as Hf. simpl in Hf.
    rewrite (bool_decide_eq_true_2 _ Heq) in Hf. discriminate Hf.
  - apply NoDup_snoc; [assumption|]. intros y Hy Heq.
    pose proof (existsb_false_elem _ _ y Hex Hy) as Hf. simpl in Hf.
    rewrite (bool_decide_eq_true_2 _ Heq), orb_true_r in Hf. discriminate Hf.
  - apply Forall_app. split; [assumption|]. apply Forall_singleton. exact Hu.
Qed.

Lemma preferences_default_consistent (uid : UUID) (now : Z) d :
  consistent d → consistent (Pg.user_preferences_insert_default uid now d).2.
Proof.
  intros Hc. unfold Pg.user_preferences_insert_default.
  destruct (existsb _ (Pg.user_preferences d)) eqn:Hex; [exact Hc|].
  destruct (Pg.user_exists uid d) eqn:Hu; [|exact Hc].
  simpl. consistent_frame Hc d; simpl.
  - apply NoDup_snoc; [assumption|]. intros y Hy Heq.
    pose proof (existsb_false_elem _ _ y Hex Hy) as Hf. simpl in Hf.
    rewrite (bool_decide_eq_true_2 _ Heq) in Hf. discriminate Hf.
  - apply Forall_app. split; [assumption|]. apply Forall_singleton. exact Hu.
Qed.

Lemma sql_bind_keeps {A B} (P : Pg.Database → Prop) (m : Pg.Sql A)
    (k : A → Pg.Sql B) d :
  (∀ d0, P d0 → P (m d0).2) → (∀ a d0, P d0 → P (k a d0).2) →
  P d → P (Pg.sql_bind m k d).2.
Proof.
  intros Hm Hk Hd. unfold Pg.sql_bind. specialize (Hm d Hd).
  destruct (m d) as [[e|a] d1]; simpl in *; [exact Hm|]. apply Hk, Hm.
Qed.

Lemma atomic_keeps {A} (P : Pg.Database → Prop) (m : Pg.Sql A) d :
  P (m d).2 → P d → P (Pg.atomic m d).2.
Proof.
  intros Hm Hd. unfold Pg.atomic.
  destruct (m d) as [[e|a] d1]; simpl in *; assumption.
Qed.

Lemma handle_new_user_consistent (new : Pg.auth_users_row) (now : Z) d :
  consistent d → consistent (Pg.handle_new_user new now d).2.
Proof.
  intros Hc. unfold Pg.handle_new_user.
  destruct (from_option Some (Pg.au_email new) (Pg.au_username new)) as [name|];
    [|exact Hc].
  apply sql_bind_keeps; [intros; apply profiles_insert_consistent; assumption| |exact Hc].
  intros _ d1 Hc1.
  apply sql_bind_keeps; [intros; apply user_roles_insert_consistent; assumption| |exact Hc1].
  intros _ d2 Hc2. apply preferences_default_consistent, Hc2.
Qed.

Lemma new_user_consistent (new : Pg.auth_users_row) d :
  Pg.user_exists (Pg.au_id new) d = false →
  consistent d → consistent (Pg.set_auth_users (Pg.auth_users d ++ [new]) d).
Proof.
  intros Hfresh Hc. destruct Hc; constructor;
    unfold Pg.user_roles_unique, Pg.user_preferences_unique in *;
    try (apply (fk_grow _ _ d _ new); [reflexivity|]); try assumption.
  simpl. apply NoDup_snoc; [assumption|]. intros y Hy Heq.
  pose proof (existsb_false_elem _ _ y Hfresh Hy) as Hf. simpl in Hf.
  rewrite (bool_decide_eq_true_2 _ Heq) in Hf. discriminate Hf.
Qed.

Lemma auth_users_insert_consistent (new : Pg.auth_users_row) (now : Z) d :
  consistent d → consistent (Pg.auth_users_insert new now d).2.
Proof.
  intros Hc. unfold Pg.auth_users_insert. apply atomic_keeps; [|exact Hc].
  destruct (Pg.user_exists (Pg.au_id new) d) eqn:Hex; [exact Hc|].
  apply handle_new_user_consistent, new_user_consistent; assumption.
Qed.

Lemma make_user_admin_consistent (e : option string) d :
  consistent d → consistent (Pg.make_user_admin e d).2.
Proof.
  intros Hc. unfold Pg.make_user_admin. apply atomic_keeps; [|exact Hc].
  destruct (Pg.select_id_by_email e d) as [uid|]; [|exact Hc].
  destruct (negb _); [|exact Hc].
  apply user_roles_insert_consistent, Hc.
Qed.

Lemma tracks_insert_consistent (caller : option UUID) (new : Pg.tracks_row) d :
  consistent d → consistent (Pg.tracks_insert caller new d).2.
Proof.
  intros Hc. unfold Pg.tracks_insert.
  destruct (negb (Pg.policy_admin caller d)); [exact Hc|].
  destruct (existsb _ (Pg.tracks d)) eqn:Hex; [exact Hc|].
  destruct (Pg.user_exists (Pg.tr_created_by new) d) eqn:Hu; [|exact Hc].
  simpl. consistent_frame Hc d; simpl.
  - apply NoDup_snoc; [assumption|]. intros y Hy Heq.
    pose proof (existsb_false_elem _ _ y Hex Hy) as Hf. simpl in Hf.
    rewrite (bool_decide_eq_true_2 _ Heq) in Hf. discriminate Hf.
  - apply Forall_app. split; [assumption|]. apply Forall_singleton. exact Hu.
Qed.

Lemma tracks_delete_consistent (caller : option UUID) (id : UUID) d :
  consistent d → consistent (Pg.tracks_delete caller id d).2.
Proof.
  intros Hc. unfold Pg.tracks_delete. simpl. consistent_frame Hc d; simpl.
  - apply NoDup_filter_keys. assumption.
  - apply Forall_filter_keep. assumption.
Qed.

Lemma storage_insert_consistent (caller : option UUID)
    (new : Pg.storage_objects_row) d :
  consistent d → consistent (Pg.storage_insert caller new d).2.
Proof.
  intros Hc. unfold Pg.storage_insert.
  destruct (negb _); [exact Hc|].
  destruct (existsb _ (Pg.storage_objects d)) eqn:Hex; [exact Hc|].
  simpl. consistent_frame Hc d; simpl.
  apply NoDup_snoc; [assumption|]. intros y Hy Heq.
  pose proof (existsb_false_elem _ _ y Hex Hy) as Hf. simpl in Hf.
  injection Heq as H1 H2.
  rewrite !bool_decide_eq_true_2 in Hf by assumption. discriminate Hf.
Qed.

Lemma upsert_consistent (caller : option UUID) (new : Pg.user_preferences_row) d :
  consistent d → consistent (Pg.user_preferences_upsert caller new d).2.
Proof.
  intros Hc. unfold Pg.user_preferences_upsert.
  destruct (negb (Pg.policy_own caller new)); [exact Hc|].
  destruct (existsb _ (Pg.user_preferences d)) eqn:Hex.
  - simpl. consistent_frame Hc d; simpl.
    + rewrite (replace_keys (Pg.up_user_id new)) by reflexivity. assumption.
    + apply existsb_exists in Hex as (r0 & Hin & Hr0).
      apply bool_decide_eq_true in Hr0. apply list_elem_of_In in Hin.
      assert (Hnew : Pg.user_exists (Pg.up_user_id new) d = true).
      { rewrite Forall_forall in preferences_fk0. rewrite <- Hr0.
        apply preferences_fk0, Hin. }
      apply Forall_fmap. eapply Forall_impl; [exact preferences_fk0|].
      intros r Hr; simpl in *. case_bool_decide; assumption.
  - destruct (Pg.user_exists (Pg.up_user_id new) d) eqn:Hu; [|exact Hc].
    simpl. consistent_frame Hc d; simpl.
    + apply NoDup_snoc; [assumption|]. intros y Hy Heq.
      pose proof (existsb_false_elem _ _ y Hex Hy) as Hf. simpl in Hf.
      rewrite (bool_decide_eq_true_2 _ Heq) in Hf. discriminate Hf.
    + apply Forall_app. split; [assumption|]. apply Forall_singleton. exact Hu.
Qed.

Lemma after_consistent (st : Statement) d : consistent d → consistent (after st d).
Proof.
  destruct st; simpl.
  - apply auth_users_insert_consistent.
  - apply make_user_admin_consistent.
  - apply tracks_insert_consistent.
  - apply tracks_delete_consistent.
  - apply upsert_consistent.
  - apply storage_insert_consistent.
Qed.

Lemma empty_consistent : consistent Scenario.empty_db.
Proof. constructor; simpl; constructor. Qed.

(** X1. Whatever statements are run on a database that satisfies the
    PRIMARY KEY, UNIQUE and REFERENCES constraints of the migrations, by
    whichever callers and whether they succeed or fail, the database
    reached satisfies them too. *)
Theorem constraints_kept (sts : list Statement) d :
  consistent d → consistent (after_all sts d).
Proof.
  unfold after_all. revert d.
  induction sts as [|st sts IH]; intros d Hc; simpl; [exact Hc|].
  apply IH, after_consistent, Hc.
Qed.

Lemma constraints_kept_witness :
  consistent
    (after_all [SignUp Scenario.alice_row 1; SignUp Scenario.root_row 2;
                SignUp Scenario.alice_row 3;
                MakeUserAdmin (Some "root@example.org");
                InsertTrack (Some "r007") Scenario.rain_row;
                UpsertPreferences (Some "a11ce")
                  {| Pg.up_user_id := "a11ce"; Pg.up_track_settings := Some ∅;
                     Pg.up_updated_at := 4 |};
                DeleteTrack (Some "a11ce") "t-rain"]
       Scenario.empty_db).
Proof. apply constraints_kept. exact empty_consistent. Defined.

End Constraints.

(* ===================================================================== *)
(** * Accounts *)
(* ===================================================================== *)

Section Accounts.

Implicit Types (d : Pg.Database) (new : Pg.auth_users_row).

Lemma existsb_none {A} (p : A → bool) (l : list A) :
  (∀ x, x ∈ l → p x = false) → existsb p l = false.
Proof.
  intros H. apply not_true_is_false. rewrite existsb_exists.
  intros (x & Hin & Hx). apply list_elem_of_In in Hin.
  rewrite (H x Hin) in Hx. discriminate Hx.
Qed.

(** No row refers to an account that does not exist. *)
Lemma no_rows_of_stranger {A} (f : A → UUID) (l : list A) d (uid : UUID) :
  Forall (fun r => Pg.user_exists (f r) d = true) l →
  Pg.user_exists uid d = false →
  ∀ r, r ∈ l → f r ≠ uid.
Proof.
  rewrite Forall_forall. intros Hfk Hno r Hr Heq.
  rewrite <- Heq, (Hfk r Hr) in Hno. discriminate Hno.
Qed.

(** A sign-up that meets no conflict: the value returned and the database
    left. *)
Lemma auth_users_insert_run new (name : string) (now : Z) d :
  consistent d →
  Pg.user_exists (Pg.au_id new) d = false →
  profile_name new = Some name →
  Forall (fun r => Pg.pr_username r ≠ name) (Pg.profiles d) →
  Pg.auth_users_insert new now d = (inr tt, with_account new name now d).
Proof.
  intros Hc Hfresh Hname Hfree.
  unfold Pg.auth_users_insert, Pg.atomic. rewrite Hfresh.
  unfold Pg.handle_new_user. unfold profile_name in Hname. rewrite Hname.
  assert (Hme : existsb (fun u => bool_decide (Pg.au_id u = Pg.au_id new))
                  (Pg.auth_users d ++ [new]) = true).
  { rewrite existsb_app; simpl. rewrite bool_decide_eq_true_2 by reflexivity.
    rewrite orb_true_r. reflexivity. }
  assert (Hp : existsb (fun r => bool_decide (Pg.pr_user_id r = Pg.au_id new)
                                 || bool_decide (Pg.pr_username r = name))
                 (Pg.profiles d) = false).
  { apply existsb_none. intros r Hr. rewrite Forall_forall in Hfree.
    rewrite bool_decide_eq_false_2
      by exact (no_rows_of_stranger _ _ d _ (profiles_fk d Hc) Hfresh r Hr).
    rewrite bool_decide_eq_false_2 by exact (Hfree r Hr). reflexivity. }
  assert (Hr : existsb (fun r => bool_decide (Pg.ur_user_id r = Pg.au_id new)
                                 && bool_decide (Pg.ur_role r = Pg.user))
                 (Pg.user_roles d) = false).
  { apply existsb_none. intros r Hr.
    rewrite bool_decide_eq_false_2
      by exact (no_rows_of_stranger _ _ d _ (roles_fk d Hc) Hfresh r Hr).
    reflexivity. }
  assert (Hu : existsb (fun r => bool_decide (Pg.up_user_id r = Pg.au_id new))
                 (Pg.user_preferences d) = false).
  { apply existsb_none. intros r Hr0.
    apply bool_decide_eq_false_2.
    exact (no_rows_of_stranger _ _ d _ (preferences_fk d Hc) Hfresh r Hr0). }
  unfold Pg.sql_bind, Pg.profiles_insert, Pg.user_roles_insert,
    Pg.user_preferences_insert_default, Pg.user_exists; simpl.
  rewrite Hp, Hme; simpl. rewrite Hr, Hme; simpl. rewrite Hu, Hme; simpl.
  reflexivity.
Qed.

(** X2. On a consistent database, signing up an account whose id is new
    and whose profile name (the username of the metadata, else the e-mail
    address) is held by no profile succeeds and adds exactly four rows: the
    account, its profile, the role [user] and an empty preference
    document.  The new account passes [has_role(id, 'user')], does not
    pass the admin policy, and its stored map is empty. *)
Theorem sign_up_creates_account new (name : string) (now : Z) d :
  consistent d →
  Pg.user_exists (Pg.au_id new) d = false →
  profile_name new = Some name →
  Forall (fun r => Pg.pr_username r ≠ name) (Pg.profiles d) →
  let d' := with_account new name now d in
  Pg.auth_users_insert new now d = (inr tt, d')
  ∧ Pg.holds (Pg.has_role (Some (Pg.au_id new)) Pg.user) d' = true
  ∧ Pg.policy_admin (Some (Pg.au_id new)) d' = false
  ∧ Pg.stored_settings (Pg.au_id new) d' = Some ∅.
Proof.
  intros Hc Hfresh Hname Hfree d'.
  split; [apply auth_users_insert_run; assumption|]. split_and!.
  - apply holds_has_role.
    exists {| Pg.ur_user_id := Pg.au_id new; Pg.ur_role := Pg.user |}.
    split; [|split; reflexivity].
    subst d'; simpl. apply elem_of_app. right. apply list_elem_of_here.
  - apply not_true_is_false. unfold Pg.policy_admin. rewrite holds_has_role.
    intros (r & Hr & Hid & Hrole). subst d'; simpl in Hr.
    apply elem_of_app in Hr as [Hr|Hr%list_elem_of_singleton].
    + injection Hid as Hid.
      exact (no_rows_of_stranger _ _ d _ (roles_fk d Hc) Hfresh r Hr (eq_sym Hid)).
    + subst r. discriminate Hrole.
  - unfold Pg.stored_settings. subst d'; simpl.
    rewrite List.filter_app. rewrite filter_none.
    + simpl. rewrite bool_decide_eq_true_2 by reflexivity. reflexivity.
    + apply existsb_none. intros r Hr. apply bool_decide_eq_false_2.
      exact (no_rows_of_stranger _ _ d _ (preferences_fk d Hc) Hfresh r Hr).
Qed.

Lemma sign_up_creates_account_witness :
  let d' := with_account Scenario.alice_row "alice@example.org" 1 Scenario.empty_db in
  Pg.auth_users_insert Scenario.alice_row 1 Scenario.empty_db = (inr tt, d')
  ∧ Pg.holds (Pg.has_role (Some "a11ce") Pg.user) d' = true
  ∧ Pg.policy_admin (Some "a11ce") d' = false
  ∧ Pg.stored_settings "a11ce" d' = Some ∅.
Proof.
  apply (sign_up_creates_account Scenario.alice_row "alice@example.org" 1
           Scenario.empty_db).
  - exact empty_consistent.
  - reflexivity.
  - reflexivity.
  - constructor.
Defined.

(** X3. A sign-up is refused, and leaves every table as it was (the
    account row included), when the id already exists (unique violation),
    when neither a username nor an e-mail address is given (not-null
    violation), or when the profile name is already held by a profile
    (unique violation). *)
Theorem sign_up_refusals new (now : Z) d :
  (Pg.user_exists (Pg.au_id new) d = true →
   Pg.auth_users_insert new now d = (inl Pg.unique_violation, d))
  ∧ (Pg.user_exists (Pg.au_id new) d = false → profile_name new = None →
     Pg.auth_users_insert new now d = (inl Pg.not_null_violation, d))
  ∧ (∀ name r, Pg.user_exists (Pg.au_id new) d = false →
       profile_name new = Some name →
       r ∈ Pg.profiles d → Pg.pr_username r = name →
       Pg.auth_users_insert new now d = (inl Pg.unique_violation, d)).
Proof.
  unfold Pg.auth_users_insert, Pg.atomic, profile_name. split_and!.
  - intros ->. reflexivity.
  - intros -> Hname. unfold Pg.handle_new_user. rewrite Hname. reflexivity.
  - intros name r -> Hname Hr Htaken. unfold Pg.handle_new_user. rewrite Hname.
    unfold Pg.sql_bind, Pg.profiles_insert; simpl.
    assert (Hex : existsb (fun r => bool_decide (Pg.pr_user_id r = Pg.au_id new)
                                    || bool_decide (Pg.pr_username r = name))
                    (Pg.profiles d) = true).
    { apply existsb_exists. exists r. split; [apply list_elem_of_In, Hr|].
      rewrite (bool_decide_eq_true_2 _ Htaken). apply orb_true_r. }
    rewrite Hex. reflexivity.
Qed.

End Accounts.

(* ===================================================================== *)
(** * The bootstrap and the admin policy *)
(* ===================================================================== *)

Section Grant.

Implicit Types (d : Pg.Database) (v : Pg.auth_users_row).

Lemma policy_admin_pair (x : UUID) d :
  Pg.policy_admin (Some x) d = existsb (is_pair x Pg.admin) (Pg.user_roles d).
Proof.
  unfold Pg.policy_admin, Pg.holds, Pg.has_role; simpl.
  reflexivity.
Qed.

(** X4. After [make_user_admin] with the e-mail address of an existing
    account, that account passes the admin policy of the track library,
    every other caller passes it exactly when it did before, and every
    role row that was there is still there. *)
Theorem make_user_admin_grants (e : string) v d :
  v ∈ Pg.auth_users d →
  Pg.au_email v = Some e →
  email_identifies e (Pg.au_id v) d →
  let d' := (Pg.make_user_admin (Some e) d).2 in
  Pg.policy_admin (Some (Pg.au_id v)) d' = true
  ∧ (∀ x : UUID, x ≠ Pg.au_id v →
       Pg.policy_admin (Some x) d' = Pg.policy_admin (Some x) d)
  ∧ Pg.policy_admin None d' = false
  ∧ (∀ r, r ∈ Pg.user_roles d → r ∈ Pg.user_roles d').
Proof.
  intros Hv He Hid d'. subst d'.
  rewrite (make_user_admin_run e v d Hv He Hid). simpl.
  destruct (existsb (is_pair (Pg.au_id v) Pg.admin) (Pg.user_roles d)) eqn:Hex.
  - split_and!; [rewrite policy_admin_pair; exact Hex|reflexivity| |auto].
    unfold Pg.policy_admin, Pg.holds, Pg.has_role; simpl.
    apply existsb_none. reflexivity.
  - split_and!.
    + rewrite policy_admin_pair; simpl. rewrite existsb_app; simpl.
      unfold is_pair at 2; simpl. rewrite !bool_decide_eq_true_2 by reflexivity.
      apply orb_true_r.
    + intros x Hx. rewrite !policy_admin_pair; simpl. rewrite existsb_app; simpl.
      unfold is_pair at 2; simpl.
      rewrite (bool_decide_eq_false_2 (Pg.au_id v = x)) by congruence.
      rewrite !orb_false_r. reflexivity.
    + unfold Pg.policy_admin, Pg.holds, Pg.has_role; simpl.
      apply existsb_none. reflexivity.
    + intros r Hr; simpl. apply elem_of_app. left. exact Hr.
Qed.

Lemma make_user_admin_grants_witness :
  let d' := (Pg.make_user_admin (Some "root@example.org") Scenario.signed_up).2 in
  Pg.policy_admin (Some "r007") d' = true
  ∧ (∀ x : UUID, x ≠ "r007" →
       Pg.policy_admin (Some x) d' = Pg.policy_admin (Some x) Scenario.signed_up)
  ∧ Pg.policy_admin None d' = false
  ∧ (∀ r, r ∈ Pg.user_roles Scenario.signed_up → r ∈ Pg.user_roles d').
Proof.
  apply (make_user_admin_grants "root@example.org" Scenario.root_row
           Scenario.signed_up).
  - vm_compute. apply list_elem_of_further, list_elem_of_here.
  - reflexivity.
  - unfold email_identifies. apply (bool_decide_unpack _). vm_compute. exact I.
Defined.

Lemma find_no_email (e : option string) (l : list Pg.auth_users_row) :
  Forall (fun v => Pg.au_email v ≠ e) l →
  List.find (fun v => Pg.sql_eq_text (Pg.au_email v) e) l = None.
Proof.
  induction 1 as [|v l Hv _ IH]; simpl; [reflexivity|].
  destruct (Pg.au_email v) as [a|], e as [b|]; simpl; try exact IH.
  rewrite bool_decide_eq_false_2 by congruence. exact IH.
Qed.

Lemma find_null_email (l : list Pg.auth_users_row) :
  List.find (fun v => Pg.sql_eq_text (Pg.au_email v) None) l = None.
Proof.
  induction l as [|v l IH]; simpl; [reflexivity|].
  destruct (Pg.au_email v); simpl; exact IH.
Qed.

(** X5. [make_user_admin] called with NULL, or with an address that no
    account has, returns normally and changes nothing; accounts whose own
    e-mail is NULL are never matched. *)
Theorem make_user_admin_unknown (e : option string) d :
  e = None ∨ Forall (fun v => Pg.au_email v ≠ e) (Pg.auth_users d) →
  Pg.make_user_admin e d = (inr tt, d).
Proof.
  intros H. unfold Pg.make_user_admin, Pg.atomic, Pg.select_id_by_email.
  destruct H as [-> | H].
  - rewrite find_null_email. reflexivity.
  - rewrite (find_no_email e _ H). reflexivity.
Qed.

Lemma make_user_admin_unknown_witness :
  Pg.make_user_admin (Some "nobody@example.org") Scenario.signed_up
  = (inr tt, Scenario.signed_up).
Proof.
  apply make_user_admin_unknown. right.
  apply (bool_decide_unpack _). vm_compute. exact I.
Defined.

End Grant.

(* ===================================================================== *)
(** * Whose preferences *)
(* ===================================================================== *)

Section Privacy.

Implicit Types (d : Pg.Database) (caller : option UUID).

Lemma replace_other (other : UUID) (new : Pg.user_preferences_row)
    (l : list Pg.user_preferences_row) :
  Pg.up_user_id new ≠ other →
  List.filter (of_user other)
    ((fun r => if bool_decide (Pg.up_user_id r = Pg.up_user_id new)
               then new else r) <$> l)
  = List.filter (of_user other) l.
Proof.
  intros Hnew. unfold of_user.
  induction l as [|r l IH]; csimpl; [reflexivity|].
  rewrite IH. destruct (decide (Pg.up_user_id r = Pg.up_user_id new)) as [Hr|Hr].
  - rewrite (bool_decide_eq_true_2 _ Hr).
    rewrite (bool_decide_eq_false_2 (Pg.up_user_id new = other)) by exact Hnew.
    rewrite (bool_decide_eq_false_2 (Pg.up_user_id r = other)) by congruence.
    reflexivity.
  - rewrite (bool_decide_eq_false_2 _ Hr). reflexivity.
Qed.

(** X6. Under the ownership policy of [user_preferences]: a SELECT
    returns only rows of the caller and none to an anonymous caller; an
    upsert of a row for anyone but the caller is refused with the
    authorization error and changes nothing; and no upsert, by anyone,
    changes the rows of another user. *)
Theorem preferences_are_private caller d :
  (∀ uid, ∃ rows,
       Pg.user_preferences_select caller uid d = (inr rows, d)
       ∧ ∀ r, r ∈ rows → caller = Some uid ∧ Pg.up_user_id r = uid)
  ∧ (∀ new, caller ≠ Some (Pg.up_user_id new) →
            Pg.user_preferences_upsert caller new d
            = (inl Pg.insufficient_privilege, d))
  ∧ (∀ new other, caller ≠ Some other →
       List.filter (of_user other)
         (Pg.user_preferences (Pg.user_preferences_upsert caller new d).2)
       = List.filter (of_user other) (Pg.user_preferences d)).
Proof.
  assert (Hown : ∀ new, caller ≠ Some (Pg.up_user_id new) →
                        Pg.policy_own caller new = false).
  { intros new Hne. apply not_true_is_false. unfold Pg.policy_own.
    rewrite sql_eq_true. exact Hne. }
  split_and!.
  - intros uid. eexists. split; [reflexivity|]. intros r Hr.
    apply list_elem_of_In, filter_In in Hr as [_ Ht].
    apply andb_true_iff in Ht as [Ho Hu]. apply bool_decide_eq_true in Hu.
    unfold Pg.policy_own in Ho. apply sql_eq_true in Ho. split; congruence.
  - intros new Hne. unfold Pg.user_preferences_upsert.
    rewrite (Hown new Hne). reflexivity.
  - intros new other Hne. unfold Pg.user_preferences_upsert.
    destruct (Pg.policy_own caller new) eqn:Ho; simpl; [|reflexivity].
    assert (Hnew : Pg.up_user_id new ≠ other).
    { unfold Pg.policy_own in Ho. apply sql_eq_true in Ho. congruence. }
    destruct (existsb _ (Pg.user_preferences d)).
    + simpl. apply replace_other, Hnew.
    + destruct (negb (Pg.user_exists _ d)); simpl; [reflexivity|].
      rewrite List.filter_app; simpl. unfold of_user at 2.
      rewrite bool_decide_eq_false_2 by exact Hnew. apply app_nil_r.
Qed.

End Privacy.

(* ===================================================================== *)
(** * Loading the page *)
(* ===================================================================== *)

Section Loading.

Implicit Types (w : AP.World) (d : Pg.Database).

Lemma created_at_asc_total : Total Pg.created_at_asc.
Proof. intros a b. unfold Pg.created_at_asc. lia. Qed.

(** [fetchTracks], in full: what each of its two ends leaves. *)
Lemma fetchTracks_run w :
  AP.exec AP.fetchTracks w =
    if AP.online w then
      AP.set_loading false
        (AP.set_tracks (listed (AP.db w)) (sent AP.tracks_select w))
    else
      AP.set_toasts
        (AP.toasts w ++
           [{| AP.title := "Error";
               AP.description := AP.lit "Failed to load tracks.";
               AP.variant := AP.destructive |}])
        (AP.set_console (AP.console w ++ ["Error fetching tracks:"])
           (sent AP.tracks_select w)).
Proof.
  apply (wp_exec AP.fetchTracks (fun w' => w' = _)).
  unfold AP.fetchTracks. wp_step. apply wp_supabase.
  - intros ->. wp_steps. reflexivity.
  - intros e d' _ [=].
  - intros a d' -> [= <- <-]. wp_steps. unfold sent.
    destruct w as [[] ? ? ? ? ? ? ? ? ? ? ?]; reflexivity.
Qed.

(** X7. With the backend reachable, [fetchTracks] shows every track of
    the table exactly once, in ascending order of creation time, to any
    caller, signed in or not; it clears the spinner, raises no
    notification and leaves the backend as it was. *)
Theorem fetchTracks_lists_library w :
  AP.online w = true →
  let w' := AP.exec AP.fetchTracks w in
  (∃ rows, rows ≡ₚ Pg.tracks (AP.db w)
           ∧ Sorted Pg.created_at_asc rows
           ∧ AP.tracks w' = AP.to_Track <$> rows)
  ∧ AP.loading w' = false
  ∧ AP.toasts w' = AP.toasts w ∧ AP.console w' = AP.console w
  ∧ AP.db w' = AP.db w.
Proof.
  intros Hon w'. subst w'. rewrite fetchTracks_run, Hon. simpl.
  split_and!; try reflexivity.
  exists (merge_sort Pg.created_at_asc (Pg.tracks (AP.db w))).
  split_and!; [apply merge_sort_Permutation| |reflexivity].
  apply (@Sorted_merge_sort _ _ _ created_at_asc_total).
Qed.

Lemma fetchTracks_lists_library_witness :
  let w' := AP.exec AP.fetchTracks Scenario.visitor_page in
  (∃ rows, rows ≡ₚ Pg.tracks (AP.db Scenario.visitor_page)
           ∧ Sorted Pg.created_at_asc rows
           ∧ AP.tracks w' = AP.to_Track <$> rows)
  ∧ AP.loading w' = false
  ∧ AP.toasts w' = AP.toasts Scenario.visitor_page
  ∧ AP.console w' = AP.console Scenario.visitor_page
  ∧ AP.db w' = AP.db Scenario.visitor_page.
Proof. apply (fetchTracks_lists_library Scenario.visitor_page). reflexivity. Defined.

End Loading.

(* ===================================================================== *)
(** * Names of files and tracks *)
(* ===================================================================== *)

Section Names.

Implicit Types (s seg base ext : string).

Lemma append_cons (c : ascii) s s' : String c s +:+ s' = String c (s +:+ s').
Proof. reflexivity. Qed.

Lemma append_nil_r s : s +:+ "" = s.
Proof.
  induction s as [|c s IH]; [reflexivity|]. rewrite append_cons, IH. reflexivity.
Qed.

Lemma append_assoc s1 s2 s3 : (s1 +:+ s2) +:+ s3 = s1 +:+ (s2 +:+ s3).
Proof.
  induction s1 as [|c s1 IH]; [reflexivity|].
  rewrite !append_cons, IH. reflexivity.
Qed.

Lemma split_pop_dot_free seg s :
  dot_free s = true → TrackUploader.split_pop seg s = seg +:+ s.
Proof.
  revert seg. induction s as [|c s IH]; intros seg; simpl.
  - intros _. rewrite append_nil_r. reflexivity.
  - intros [Hc Hs]%andb_true_iff. apply negb_true_iff in Hc. rewrite Hc.
    rewrite (IH _ Hs), append_assoc. reflexivity.
Qed.

Lemma split_pop_after_dot seg base ext :
  dot_free ext = true →
  TrackUploader.split_pop seg (base +:+ "." +:+ ext) = ext.
Proof.
  intros Hext. revert seg. induction base as [|c base IH]; intros seg.
  - change ("" +:+ "." +:+ ext) with (String "."%char ext). simpl.
    apply (split_pop_dot_free "" ext Hext).
  - rewrite append_cons. simpl. destruct (bool_decide (c = "."%char)); apply IH.
Qed.

(** X10. The extension [handleUpload] gives the stored object is what
    follows the last dot of the file name: for a name [base.ext] with no
    dot in [ext] it is [ext], whatever dots [base] has; for a name with no
    dot at all it is the whole name. *)
Theorem extension_is_after_last_dot base ext :
  dot_free ext = true →
  TrackUploader.split_pop "" (base +:+ "." +:+ ext) = ext
  ∧ TrackUploader.split_pop "" ext = ext.
Proof.
  intros Hext. split; [apply split_pop_after_dot, Hext|].
  apply (split_pop_dot_free "" ext Hext).
Qed.

Lemma extension_is_after_last_dot_witness :
  TrackUploader.split_pop "" ("rain.final.take2" +:+ "." +:+ "mp3") = "mp3"
  ∧ TrackUploader.split_pop "" "mp3" = "mp3".
Proof. apply (extension_is_after_last_dot "rain.final.take2" "mp3"). reflexivity. Defined.






(** A no-break space, a tab and an ideographic space around "Rain". *)
Example trim_rain :
  let nbsp := String (ascii_of_N 0xC2) (String (ascii_of_N 0xA0) "") in
  let wide := String (ascii_of_N 0xE3)
                (String (ascii_of_N 0x80) (String (ascii_of_N 0x80) "")) in
  TrackUploader.trim (nbsp +:+ String (ascii_of_N 9) "Rain" +:+ wide +:+ " ")
  = "Rain"
  ∧ TrackUploader.trim (nbsp +:+ wide) = "".
Proof. split; reflexivity. Qed.


End Names.

(* ===================================================================== *)
(** * Uploading a track *)
(* ===================================================================== *)

Section Upload.

Implicit Types (w : AP.World) (d : Pg.Database) (s : TrackUploader.State)
  (f : TrackUploader.File).



Lemma storage_insert_refused (caller : option UUID) (o : Pg.storage_objects_row) d :
  Pg.policy_admin caller d = false →
  Pg.storage_insert caller o d = (inl Pg.insufficient_privilege, d).
Proof.
  intros Hp. unfold Pg.storage_insert. rewrite Hp, andb_false_r. reflexivity.
Qed.

Lemma wp_fst_snd {A} (m : AP.M A) (x : A * AP.World) w :
  wp m (fun a w' => (a, w') = x) w → m w = x.
Proof. unfold wp. destruct (m w). exact id. Qed.

(** X13. An upload of a file under a name that [trim] leaves something
    of, by a caller without the admin role, stops at the storage bucket: the upload request is the only one sent, the insert into
    [tracks] is never attempted, the backend is unchanged, and the page
    logs and shows "Upload failed" with the error it got (the
    authorization error when the backend answered).  The file and the name
    stay in the form. *)
Theorem nonadmin_upload_rejected (rand : string) (new_id : UUID) s f w :
  TrackUploader.file s = Some f →
  TrackUploader.trim (TrackUploader.trackName s) ≠ "" →
  lacks_admin (AP.auth_uid w) (AP.db w) →
  let fileName := generated_name (AP.now w) rand f in
  let e := if AP.online w then AP.sql_error Pg.insufficient_privilege
           else AP.fetch_failed in
  TrackUploader.handleUpload rand new_id s w
  = ({| TrackUploader.file := Some f;
        TrackUploader.trackName := TrackUploader.trackName s;
        TrackUploader.uploading := false |},
     upload_failure (AP.message e) (sent (AP.storage_upload "tracks" fileName) w)).
Proof.
  intros Hf Hb Hl fileName e. apply policy_admin_false in Hl.
  apply wp_fst_snd. unfold TrackUploader.handleUpload. rewrite Hf.
  rewrite bool_decide_eq_false_2 by exact Hb.
  wp_steps. fold fileName. apply wp_supabase.
  - intros Hoff. unfold TrackUploader.upload_failed. wp_steps.
    subst e. rewrite Hoff, Hf. reflexivity.
  - intros e0 d' Hon He. rewrite (storage_insert_refused _ _ _ Hl) in He.
    injection He as <- <-. unfold TrackUploader.upload_failed. wp_steps.
    subst e. rewrite Hon, Hf. reflexivity.
  - intros a d' _ He. rewrite (storage_insert_refused _ _ _ Hl) in He.
    discriminate He.
Qed.

Lemma nonadmin_upload_rejected_witness :
  let w := Scenario.alice_page in
  let fileName := generated_name (AP.now w) "q9z" {| TrackUploader.file_name := "wind.ogg" |} in
  TrackUploader.handleUpload "q9z" "t-wind"
    {| TrackUploader.file := Some {| TrackUploader.file_name := "wind.ogg" |};
       TrackUploader.trackName := "Wind";
       TrackUploader.uploading := false |} w
  = ({| TrackUploader.file := Some {| TrackUploader.file_name := "wind.ogg" |};
        TrackUploader.trackName := "Wind";
        TrackUploader.uploading := false |},
     upload_failure (AP.message (AP.sql_error Pg.insufficient_privilege))
       (sent (AP.storage_upload "tracks" fileName) w)).
Proof.
  apply (nonadmin_upload_rejected "q9z" "t-wind"
           {| TrackUploader.file := Some {| TrackUploader.file_name := "wind.ogg" |};
              TrackUploader.trackName := "Wind";
              TrackUploader.uploading := false |}
           {| TrackUploader.file_name := "wind.ogg" |} Scenario.alice_page).
  - reflexivity.
  - vm_compute. discriminate.
  - unfold lacks_admin. apply (bool_decide_unpack _). vm_compute. exact I.
Defined.

Lemma storage_insert_admin (caller : option UUID) (o : Pg.storage_objects_row) d :
  Pg.policy_admin caller d = true →
  Pg.so_bucket_id o = "tracks" →
  Forall (fun r => (Pg.so_bucket_id r, Pg.so_name r)
                   ≠ (Pg.so_bucket_id o, Pg.so_name o)) (Pg.storage_objects d) →
  Pg.storage_insert caller o d
  = (inr tt, Pg.set_storage_objects (Pg.storage_objects d ++ [o]) d).
Proof.
  intros Hp Hb Hfresh. unfold Pg.storage_insert, Pg.policy_bucket.
  rewrite Hp, (bool_decide_eq_true_2 _ Hb). simpl.
  rewrite existsb_none; [reflexivity|].
  intros r Hr. rewrite Forall_forall in Hfresh. specialize (Hfresh r Hr).
  apply andb_false_iff.
  destruct (decide (Pg.so_bucket_id r = Pg.so_bucket_id o)) as [Hbk|Hbk].
  - right. apply bool_decide_eq_false_2. congruence.
  - left. apply bool_decide_eq_false_2. exact Hbk.
Qed.

Lemma tracks_insert_admin (caller : option UUID) (new : Pg.tracks_row) d :
  Pg.policy_admin caller d = true →
  Forall (fun r => Pg.tr_id r ≠ Pg.tr_id new) (Pg.tracks d) →
  Pg.user_exists (Pg.tr_created_by new) d = true →
  Pg.tracks_insert caller new d = (inr tt, Pg.set_tracks (Pg.tracks d ++ [new]) d).
Proof.
  intros Hp Hfresh Hu. unfold Pg.tracks_insert. rewrite Hp, Hu. simpl.
  rewrite existsb_none; [reflexivity|].
  intros r Hr. rewrite Forall_forall in Hfresh.
  apply bool_decide_eq_false_2, Hfresh, Hr.
Qed.

(** X14. An upload of a file under a name that [trim] leaves something
    of, by a signed-in admin, with the backend reachable, an object name
    not yet in the bucket and a row id not yet in the table,
    stores one object in the bucket [tracks] and appends one row to
    [tracks]: the row carries the trimmed name, the admin as creator and,
    as [file_url], the public URL of that very object.  The form is
    cleared and the page lists the library again, the new track
    included. *)
Theorem admin_upload_creates_track (rand : string) (new_id : UUID) s f
    (u : AP.User) w :
  TrackUploader.file s = Some f →
  TrackUploader.trim (TrackUploader.trackName s) ≠ "" →
  AP.user w = Some u →
  AP.online w = true →
  Pg.policy_admin (Some (AP.user_id u)) (AP.db w) = true →
  Pg.user_exists (AP.user_id u) (AP.db w) = true →
  Forall (fun r => (Pg.so_bucket_id r, Pg.so_name r)
                   ≠ ("tracks", generated_name (AP.now w) rand f))
         (Pg.storage_objects (AP.db w)) →
  Forall (fun r => Pg.tr_id r ≠ new_id) (Pg.tracks (AP.db w)) →
  let obj := {| Pg.so_bucket_id := "tracks";
                Pg.so_name := generated_name (AP.now w) rand f |} in
  let row := {| Pg.tr_id := new_id;
                Pg.tr_name := TrackUploader.trim (TrackUploader.trackName s);
                Pg.tr_file_url :=
                  TrackUploader.getPublicUrl (AP.supabaseUrl w) "tracks"
                    (generated_name (AP.now w) rand f);
                Pg.tr_created_by := AP.user_id u;
                Pg.tr_created_at := AP.now w |} in
  let s' := (TrackUploader.handleUpload rand new_id s w).1 in
  let w' := (TrackUploader.handleUpload rand new_id s w).2 in
  s' = {| TrackUploader.file := None; TrackUploader.trackName := "";
          TrackUploader.uploading := false |}
  ∧ AP.db w' = Pg.set_tracks (Pg.tracks (AP.db w) ++ [row])
                 (Pg.set_storage_objects (Pg.storage_objects (AP.db w) ++ [obj])
                    (AP.db w))
  ∧ TrackUploader.object_of w row obj = true
  ∧ AP.tracks w' = listed (AP.db w')
  ∧ AP.to_Track row ∈ AP.tracks w'.
Proof.
  intros Hf Hb Hu Hon Hadm Hex Hobj Hid obj row s' w'.
  set (d1 := Pg.set_storage_objects (Pg.storage_objects (AP.db w) ++ [obj]) (AP.db w)).
  set (d2 := Pg.set_tracks (Pg.tracks (AP.db w) ++ [row]) d1).
  assert (Hcaller : AP.auth_uid w = Some (AP.user_id u))
    by (unfold AP.auth_uid; rewrite Hu; reflexivity).
  assert (H1 : Pg.storage_insert (AP.auth_uid w) obj (AP.db w) = (inr tt, d1)).
  { rewrite Hcaller. apply storage_insert_admin; [exact Hadm|reflexivity|exact Hobj]. }
  assert (H2 : Pg.tracks_insert (AP.auth_uid w) row d1 = (inr tt, d2)).
  { rewrite Hcaller. apply tracks_insert_admin; [exact Hadm|exact Hid|exact Hex]. }
  assert (Hrun : wp (TrackUploader.handleUpload rand new_id s)
                   (fun a w0 =>
                      a = {| TrackUploader.file := None; TrackUploader.trackName := "";
                             TrackUploader.uploading := false |}
                      ∧ AP.db w0 = d2 ∧ AP.tracks w0 = listed d2) w).
  { unfold TrackUploader.handleUpload. rewrite Hf.
    rewrite bool_decide_eq_false_2 by exact Hb.
    wp_steps. fold (generated_name (AP.now w) rand f). fold obj.
    apply wp_supabase.
    - rewrite Hon. discriminate.
    - intros e d' _ He. rewrite H1 in He. discriminate He.
    - intros [] d' _ He. rewrite H1 in He. injection He as <-.
      wp_steps. simpl AP.user. rewrite Hu. wp_steps.
      simpl AP.supabaseUrl. simpl AP.now. fold row.
      apply wp_supabase.
      + simpl. rewrite Hon. discriminate.
      + intros e d' _ He. simpl in He. fold d1 in He.
        change (AP.auth_uid _) with (AP.auth_uid w) in He.
        rewrite H2 in He. discriminate He.
      + intros [] d' _ He. simpl in He. fold d1 in He.
        change (AP.auth_uid _) with (AP.auth_uid w) in He.
        rewrite H2 in He. injection He as <-.
        wp_steps. eapply wp_mono; [apply fetchTracks_spec|].
        intros _ w0 (Hdb & _ & _ & Hl & _). wp_steps.
        simpl in Hdb, Hl. split_and!; [reflexivity|exact Hdb|].
        rewrite (Hl Hon). reflexivity. }
  unfold wp in Hrun. fold s' w' in Hrun. destruct Hrun as (Hs & Hdb & Htr).
  split_and!; [exact Hs|exact Hdb| |rewrite Hdb; exact Htr|].
  - unfold TrackUploader.object_of. apply bool_decide_eq_true. reflexivity.
  - rewrite Htr. unfold listed. apply list_elem_of_fmap_2.
    rewrite merge_sort_Permutation. subst d2; simpl.
    apply elem_of_app. right. apply list_elem_of_here.
Qed.

Lemma admin_upload_creates_track_witness :
  let w := Scenario.admin_page in
  let s := Scenario.rain_file in
  let name := generated_name (AP.now w) "k3x" {| TrackUploader.file_name := "rain.mp3" |} in
  let obj := {| Pg.so_bucket_id := "tracks"; Pg.so_name := name |} in
  let row := {| Pg.tr_id := "t-rain";
                Pg.tr_name := TrackUploader.trim (TrackUploader.trackName s);
                Pg.tr_file_url :=
                  TrackUploader.getPublicUrl (AP.supabaseUrl w) "tracks" name;
                Pg.tr_created_by := "r007";
                Pg.tr_created_at := AP.now w |} in
  let s' := (TrackUploader.handleUpload "k3x" "t-rain" s w).1 in
  let w' := (TrackUploader.handleUpload "k3x" "t-rain" s w).2 in
  s' = {| TrackUploader.file := None; TrackUploader.trackName := "";
          TrackUploader.uploading := false |}
  ∧ AP.db w' = Pg.set_tracks (Pg.tracks (AP.db w) ++ [row])
                 (Pg.set_storage_objects (Pg.storage_objects (AP.db w) ++ [obj])
                    (AP.db w))
  ∧ TrackUploader.object_of w row obj = true
  ∧ AP.tracks w' = listed (AP.db w')
  ∧ AP.to_Track row ∈ AP.tracks w'.
Proof.
  apply (admin_upload_creates_track "k3x" "t-rain" Scenario.rain_file
           {| TrackUploader.file_name := "rain.mp3" |} Scenario.root
           Scenario.admin_page).
  - reflexivity.
  - vm_compute. discriminate.
  - reflexivity.
  - reflexivity.
  - vm_compute. reflexivity.
  - vm_compute. reflexivity.
  - constructor.
  - constructor.
Defined.

End Upload.

(* ===================================================================== *)
(** * The control, whatever the browser answers *)
(* ===================================================================== *)

Section Element.

Implicit Types (p : AudioTrack.Props) (s : AudioTrack.State) (g : bool).

(** The playback effect on a control whose element follows its cells. *)
Lemma effect_playback_mirrors g p s :
  (∃ a, AudioTrack.audioRef s = Some a
        ∧ AudioTrack.src a = AudioTrack.fileUrl p
        ∧ AudioTrack.loop a = true
        ∧ AudioTrack.audio_volume a = AudioTrack.volume s
        ∧ AudioTrack.isPlaying s = negb (AudioTrack.paused a)) →
  mirrors p (AudioTrack.effect_playback g p s).1.
Proof.
  intros (a & Ha & Hsrc & Hloop & Hvol & Hplay).
  unfold AudioTrack.effect_playback, mirrors. rewrite Ha.
  destruct (AudioTrack.enabled s && (0 <? AudioTrack.volume s)) eqn:Hc.
  - apply andb_true_iff in Hc as [He Hv]. apply Z.ltb_lt in Hv.
    unfold AudioTrack.play. destruct g; simpl.
    + eexists. split; [reflexivity|]. simpl.
      destruct (AudioTrack.paused a) eqn:Hp; simpl; rewrite ?Hplay;
        split_and!; auto.
    + exists a. split_and!; auto.
  - unfold AudioTrack.pause. simpl. eexists. split; [reflexivity|]. simpl.
    destruct (AudioTrack.paused a) eqn:Hp; simpl; rewrite ?Hplay;
      split_and!; auto; discriminate.
Qed.

Lemma effect_volume_mirrors p s :
  (∃ a, AudioTrack.audioRef s = Some a
        ∧ AudioTrack.src a = AudioTrack.fileUrl p
        ∧ AudioTrack.loop a = true
        ∧ AudioTrack.isPlaying s = negb (AudioTrack.paused a)) →
  ∃ a, AudioTrack.audioRef (AudioTrack.effect_volume p s).1 = Some a
       ∧ AudioTrack.src a = AudioTrack.fileUrl p
       ∧ AudioTrack.loop a = true
       ∧ AudioTrack.audio_volume a = AudioTrack.volume (AudioTrack.effect_volume p s).1
       ∧ AudioTrack.isPlaying (AudioTrack.effect_volume p s).1
         = negb (AudioTrack.paused a).
Proof.
  intros (a & Ha & Hsrc & Hloop & Hplay).
  unfold AudioTrack.effect_volume. rewrite Ha. simpl.
  eexists. split; [reflexivity|]. simpl. auto.
Qed.

Lemma mount_mirrors g p : mirrors p (AudioTrack.mount g p).1.
Proof.
  unfold AudioTrack.mount.
  set (s1 := AudioTrack.effect_audio p _).
  pose proof (effect_volume_mirrors p s1) as H2.
  destruct (AudioTrack.effect_volume p s1) as [s2 out2]; simpl in H2.
  pose proof (effect_playback_mirrors g p s2) as H3.
  destruct (AudioTrack.effect_playback g p s2) as [s3 out3]; simpl in *.
  apply H3, H2. eexists. split; [reflexivity|]. simpl. auto.
Qed.

Lemma step_mirrors g p (a : AudioTrack.Action) s :
  mirrors p s → mirrors p (AudioTrack.step g p a s).1.
Proof.
  intros Hm. pose proof Hm as (el & Ha & Hsrc & Hloop & Hvol & Hplay & Hsil).
  destruct a as [v|c]; unfold AudioTrack.step.
  - case_bool_decide; [exact Hm|].
    set (s1 := AudioTrack.set_volume v s).
    pose proof (effect_volume_mirrors p s1) as H2.
    destruct (AudioTrack.effect_volume p s1) as [s2 out2]; simpl in H2.
    pose proof (effect_playback_mirrors g p s2) as H3.
    destruct (AudioTrack.effect_playback g p s2) as [s3 out3]; simpl in *.
    apply H3, H2. exists el. auto.
  - case_bool_decide; [exact Hm|].
    apply effect_playback_mirrors. exists el. simpl. auto 10.
Qed.

(** X15. After mounting and any sequence of toggles and volume changes,
    whether the browser grants or refuses each [play()]: the control has
    its audio element, the element loops the track's file at the control's
    volume, [isPlaying] is true exactly when the element is not paused,
    and the element is never playing while the control is disabled or its
    volume is zero. *)
Theorem element_follows_control p g (tr : list (AudioTrack.Action * bool)) :
  mirrors p (AudioTrack.run p tr (AudioTrack.mount g p).1).
Proof.
  generalize (mount_mirrors g p). generalize (AudioTrack.mount g p).1 as s.
  induction tr as [|[a g'] tr IH]; intros s Hs; simpl; [exact Hs|].
  apply IH, step_mirrors, Hs.
Qed.

(** X16. What a transition reports to the page: a volume change reports
    the new volume and then, again, the enabled flag; a toggle reports the
    new flag only; a setter called with the value the cell already has
    reports nothing and leaves the control as it was. *)
Theorem transition_reports g p s :
  (∀ v, v ≠ AudioTrack.volume s →
        List.filter is_callback (AudioTrack.step g p (AudioTrack.handleVolumeChange v) s).2
        = [AudioTrack.onVolumeChange (AudioTrack.id p) v;
           AudioTrack.onEnabledChange (AudioTrack.id p) (AudioTrack.enabled s)])
  ∧ (∀ c, c ≠ AudioTrack.enabled s →
        List.filter is_callback (AudioTrack.step g p (AudioTrack.handleEnabledChange c) s).2
        = [AudioTrack.onEnabledChange (AudioTrack.id p) c])
  ∧ AudioTrack.step g p (AudioTrack.handleVolumeChange (AudioTrack.volume s)) s = (s, [])
  ∧ AudioTrack.step g p (AudioTrack.handleEnabledChange (AudioTrack.enabled s)) s = (s, []).
Proof.
  assert (Hpb : ∀ s0, List.filter is_callback (AudioTrack.effect_playback g p s0).2
                      = [AudioTrack.onEnabledChange (AudioTrack.id p) (AudioTrack.enabled s0)]).
  { intros s0. unfold AudioTrack.effect_playback, AudioTrack.play.
    destruct (AudioTrack.audioRef s0); [|reflexivity].
    destruct (AudioTrack.enabled s0 && (0 <? AudioTrack.volume s0)); [|reflexivity].
    destruct g; reflexivity. }
  split_and!.
  - intros v Hv. unfold AudioTrack.step.
    rewrite bool_decide_eq_false_2 by exact Hv.
    set (s1 := AudioTrack.set_volume v s).
    assert (He : AudioTrack.enabled (AudioTrack.effect_volume p s1).1 = AudioTrack.enabled s).
    { unfold AudioTrack.effect_volume; simpl. destruct (AudioTrack.audioRef s); reflexivity. }
    assert (Ho : (AudioTrack.effect_volume p s1).2
                 = [AudioTrack.onVolumeChange (AudioTrack.id p) v]) by reflexivity.
    destruct (AudioTrack.effect_volume p s1) as [s2 out2]; simpl in He, Ho.
    specialize (Hpb s2).
    destruct (AudioTrack.effect_playback g p s2) as [s3 out3]; simpl in *.
    rewrite Ho. simpl. rewrite Hpb, He. reflexivity.
  - intros c Hc. unfold AudioTrack.step.
    rewrite bool_decide_eq_false_2 by exact Hc. rewrite Hpb. reflexivity.
  - unfold AudioTrack.step. rewrite bool_decide_eq_true_2 by reflexivity. reflexivity.
  - unfold AudioTrack.step. rewrite bool_decide_eq_true_2 by reflexivity. reflexivity.
Qed.

(** X17. Enabling a silent control with a volume above zero when the
    browser refuses [play()]: the control shows enabled, the element stays
    paused, [isPlaying] stays as it was, the page is told of the new flag,
    and the refusal is logged after that. *)
Theorem refused_play_stays_silent p s (a : AudioTrack.Audio) :
  AudioTrack.audioRef s = Some a →
  AudioTrack.paused a = true →
  AudioTrack.enabled s = false →
  0 < AudioTrack.volume s →
  let r := AudioTrack.step false p (AudioTrack.handleEnabledChange true) s in
  AudioTrack.enabled r.1 = true
  ∧ AudioTrack.playing r.1 = false
  ∧ AudioTrack.isPlaying r.1 = AudioTrack.isPlaying s
  ∧ r.2 = [AudioTrack.onEnabledChange (AudioTrack.id p) true;
           AudioTrack.console_error].
Proof.
  intros Ha Hp He Hv r. subst r. unfold AudioTrack.step.
  rewrite He. simpl. unfold AudioTrack.effect_playback; simpl. rewrite Ha.
  apply Z.ltb_lt in Hv. rewrite Hv. simpl.
  unfold AudioTrack.playing; simpl. rewrite Ha, Hp. auto.
Qed.

Lemma refused_play_stays_silent_witness :
  let s := (AudioTrack.mount true Scenario.rain_props).1 in
  let r := AudioTrack.step false Scenario.rain_props
             (AudioTrack.handleEnabledChange true) s in
  AudioTrack.enabled r.1 = true
  ∧ AudioTrack.playing r.1 = false
  ∧ AudioTrack.isPlaying r.1 = AudioTrack.isPlaying s
  ∧ r.2 = [AudioTrack.onEnabledChange "t-rain" true; AudioTrack.console_error].
Proof.
  apply (refused_play_stays_silent Scenario.rain_props
           (AudioTrack.mount true Scenario.rain_props).1
           {| AudioTrack.src := AudioTrack.fileUrl Scenario.rain_props;
              AudioTrack.loop := true; AudioTrack.audio_volume := 50;
              AudioTrack.paused := true |}).
  - reflexivity.
  - reflexivity.
  - reflexivity.
  - reflexivity.
Defined.

End Element.

(* ===================================================================== *)
(** * What a change leaves on the page *)
(* ===================================================================== *)

Section Optimistic.

Implicit Types (w : AP.World) (m : TrackSettings) (id : string).

(** [savePreferences], whatever the session and the backend do, leaves
    the page's cells and notifications alone. *)
Lemma savePreferences_frame m w :
  wp (AP.savePreferences m)
     (fun _ w' => AP.trackSettings w' = AP.trackSettings w
                  ∧ AP.tracks w' = AP.tracks w ∧ AP.loading w' = AP.loading w
                  ∧ AP.toasts w' = AP.toasts w ∧ same_session w w') w.
Proof.
  unfold AP.savePreferences. wp_steps.
  destruct (AP.user w) as [u|]; wp_steps; [|split_and!; try reflexivity; repeat split].
  apply wp_supabase.
  - intros _. wp_steps. simpl. split_and!; try reflexivity; repeat split.
  - intros e d' _ _. wp_steps. simpl. split_and!; try reflexivity; repeat split.
  - intros a d' _ _. wp_steps. simpl. split_and!; try reflexivity; repeat split.
Qed.

Lemma save_and_set_settings m w :
  AP.trackSettings (AP.exec (AP.savePreferences m;; AP.setTrackSettings m) w) = m.
Proof.
  apply (wp_exec _ (fun w' => AP.trackSettings w' = m)). wp_step.
  eapply wp_mono; [apply savePreferences_frame|]. intros _ w' _. wp_steps.
  reflexivity.
Qed.

Lemma dispatch_all_cons (e : AudioTrack.Emit) (out : list AudioTrack.Emit) w :
  AP.exec (dispatch_all (e :: out)) w
  = AP.exec (dispatch_all out) (AP.exec (AP.dispatch e) w).
Proof.
  unfold AP.exec; simpl. unfold mbind, AP.M_bind.
  destruct (AP.dispatch e w). reflexivity.
Qed.

Lemma console_error_settings w :
  AP.trackSettings (AP.exec (AP.dispatch AudioTrack.console_error) w)
  = AP.trackSettings w.
Proof. reflexivity. Qed.

(** X18. Mounting the control of a track reports its initial volume and
    flag at once, and the page handles both reports: afterwards the page's
    map holds, for that track, exactly the values the control was given
    (the stored ones, or 50 and disabled for a track with no entry), and
    every other entry is as before.  So drawing a track for the first time
    already gives it an entry. *)
Theorem mount_writes_what_it_shows w (t : AP.Track) g :
  let p := AP.props w t in
  let w' := AP.exec (dispatch_all (AudioTrack.mount g p).2) w in
  AP.trackSettings w'
  = <[AP.id t :=
        {| volume := default 50 (volume <$> AP.trackSettings w !! AP.id t);
           enabled := default false (enabled <$> AP.trackSettings w !! AP.id t) |}]>
      (AP.trackSettings w).
Proof.
  intros p w'. subst w'.
  set (v0 := default 50 (volume <$> AP.trackSettings w !! AP.id t)).
  set (e0 := default false (enabled <$> AP.trackSettings w !! AP.id t)).
  assert (Hvol : AP.trackSettings
                   (AP.exec (AP.dispatch (AudioTrack.onVolumeChange (AP.id t) v0)) w)
                 = <[AP.id t := {| volume := v0;
                                   enabled := default true
                                     (enabled <$> AP.trackSettings w !! AP.id t) |}]>
                     (AP.trackSettings w)).
  { simpl. rewrite handleVolumeChange_run. cbv zeta. apply save_and_set_settings. }
  assert (Hen : ∀ w1,
            AP.trackSettings w1 !! AP.id t
            = Some {| volume := v0;
                      enabled := default true
                        (enabled <$> AP.trackSettings w !! AP.id t) |} →
            AP.trackSettings
              (AP.exec (AP.dispatch (AudioTrack.onEnabledChange (AP.id t) e0)) w1)
            = <[AP.id t := {| volume := v0; enabled := e0 |}]> (AP.trackSettings w1)).
  { intros w1 H1. simpl. rewrite handleEnabledChange_run. cbv zeta.
    rewrite save_and_set_settings, H1. reflexivity. }
  assert (Hout : (AudioTrack.mount g p).2
                 = [AudioTrack.onVolumeChange (AP.id t) v0;
                    AudioTrack.onEnabledChange (AP.id t) e0]
                 ∨ (AudioTrack.mount g p).2
                   = [AudioTrack.onVolumeChange (AP.id t) v0;
                      AudioTrack.onEnabledChange (AP.id t) e0;
                      AudioTrack.console_error]).
  { unfold AudioTrack.mount, AudioTrack.effect_playback, AudioTrack.play; simpl.
    fold v0 e0. destruct (e0 && (0 <? v0)); [|left; reflexivity].
    destruct g; [left|right]; reflexivity. }
  destruct Hout as [-> | ->]; rewrite !dispatch_all_cons; simpl dispatch_all.
  - change (AP.exec (mret tt) ?x) with x.
    rewrite Hen; rewrite Hvol; [|apply lookup_insert_eq].
    apply insert_insert_eq.
  - change (AP.exec (mret tt) ?x) with x.
    rewrite console_error_settings.
    rewrite Hen; rewrite Hvol; [|apply lookup_insert_eq].
    apply insert_insert_eq.
Qed.

(** X19. A change made while the backend is unreachable is kept by the
    page all the same: the page's map takes the new entry, the stored
    documents are untouched, the failure is written to the console, and no
    notification is raised. *)
Theorem offline_change_kept_in_memory w (u : AP.User) id (v : Z) :
  AP.user w = Some u →
  AP.online w = false →
  let w' := AP.exec (AP.handleVolumeChange id v) w in
  AP.trackSettings w' !! id
  = Some {| volume := v;
            enabled := default true (enabled <$> AP.trackSettings w !! id) |}
  ∧ AP.db w' = AP.db w
  ∧ AP.console w' = AP.console w ++ ["Error saving preferences:"]
  ∧ AP.toasts w' = AP.toasts w.
Proof.
  intros Hu Hoff w'. subst w'. rewrite handleVolumeChange_run. cbv zeta.
  set (new := <[id := _]> (AP.trackSettings w)).
  set (W := AP.exec _ w). pattern W. subst W. apply wp_exec.
  wp_step. unfold AP.savePreferences. wp_steps. rewrite Hu. wp_steps.
  apply wp_supabase.
  - intros _. wp_steps. simpl. split_and!; try reflexivity.
    subst new. apply lookup_insert_eq.
  - intros e d' Hon. rewrite Hoff in Hon. discriminate Hon.
  - intros a d' Hon. rewrite Hoff in Hon. discriminate Hon.
Qed.

Lemma offline_change_kept_in_memory_witness :
  let w := AP.init (AP.db Scenario.with_rain) false 2000 Scenario.project_url
             (Some Scenario.alice) false in
  let w' := AP.exec (AP.handleVolumeChange "t-rain" 30) w in
  AP.trackSettings w' !! "t-rain"
  = Some {| volume := 30;
            enabled := default true (enabled <$> AP.trackSettings w !! "t-rain") |}
  ∧ AP.db w' = AP.db w
  ∧ AP.console w' = AP.console w ++ ["Error saving preferences:"]
  ∧ AP.toasts w' = AP.toasts w.
Proof.
  apply (offline_change_kept_in_memory
           (AP.init (AP.db Scenario.with_rain) false 2000 Scenario.project_url
              (Some Scenario.alice) false) Scenario.alice "t-rain" 30);
    reflexivity.
Defined.

(** X20. [handleDeleteTrack] by a caller without the admin role, with the
    backend reachable: no row is removed and nothing else changes in the
    backend, yet the page raises the "Track deleted" notification and
    re-fetches the list, which still has every track. *)
Theorem nonadmin_delete_reports_success w id :
  AP.online w = true →
  lacks_admin (AP.auth_uid w) (AP.db w) →
  let w' := AP.exec (AP.handleDeleteTrack id) w in
  AP.db w' = AP.db w
  ∧ AP.toasts w' =
      AP.toasts w ++ [{| AP.title := "Track deleted";
                         AP.description := AP.lit "The track has been removed.";
                         AP.variant := AP.default_variant |}]
  ∧ AP.console w' = AP.console w
  ∧ AP.requests w' = AP.requests w ++ [AP.tracks_delete id; AP.tracks_select]
  ∧ AP.tracks w' = listed (AP.db w).
Proof.
  intros Hon Hl w'. subst w'. apply policy_admin_false in Hl.
  set (W := AP.exec _ w). pattern W. subst W. apply wp_exec.
  unfold AP.handleDeleteTrack. wp_step. apply wp_supabase.
  - rewrite Hon. discriminate.
  - intros e d' _ [=].
  - intros [] d' _ Hdel. rewrite (tracks_delete_hidden _ _ _ Hl) in Hdel.
    injection Hdel as <-. wp_steps.
    set (w1 := AP.set_toasts _ _).
    assert (Hrun : AP.exec AP.fetchTracks w1
                   = AP.set_loading false
                       (AP.set_tracks (listed (AP.db w1)) (sent AP.tracks_select w1))).
    { rewrite fetchTracks_run. subst w1; simpl. rewrite Hon. reflexivity. }
    unfold wp. change ((AP.fetchTracks w1).2) with (AP.exec AP.fetchTracks w1).
    rewrite Hrun. subst w1; simpl. rewrite <- app_assoc.
    destruct (AP.db w); split_and!; reflexivity.
Qed.

Lemma nonadmin_delete_reports_success_witness :
  let w := Scenario.alice_page in
  let w' := AP.exec (AP.handleDeleteTrack "t-rain") w in
  AP.db w' = AP.db w
  ∧ AP.toasts w' =
      AP.toasts w ++ [{| AP.title := "Track deleted";
                         AP.description := AP.lit "The track has been removed.";
                         AP.variant := AP.default_variant |}]
  ∧ AP.console w' = AP.console w
  ∧ AP.requests w' = AP.requests w ++ [AP.tracks_delete "t-rain"; AP.tracks_select]
  ∧ AP.tracks w' = listed (AP.db w).
Proof.
  apply (nonadmin_delete_reports_success Scenario.alice_page "t-rain").
  - reflexivity.
  - unfold lacks_admin. apply (bool_decide_unpack _). vm_compute. exact I.
Defined.

End Optimistic.

(* ===================================================================== *)
(** * Submitting the sign-in form *)
(* ===================================================================== *)

Section Submit.

Implicit Types (st : Auth.State) (error : option string).

Lemma validate_ok st :
  (Auth.validate st).1 = true
  ↔ (3 ≤ Auth.utf16_length (Auth.username st))%nat
    ∧ (6 ≤ Auth.utf16_length (Auth.password st))%nat.
Proof.
  unfold Auth.validate; simpl.
  destruct (Nat.ltb_spec (Auth.utf16_length (Auth.username st)) 3),
           (Nat.ltb_spec (Auth.utf16_length (Auth.password st)) 6);
    simpl; split; try discriminate; try lia; auto.
Qed.

(** X21. A form whose username has fewer than 3 UTF-16 units (the
    [length] of JavaScript) or whose password has fewer than 6 is stopped
    before any call: the submit has no
    effect outside the form (no sign-in or sign-up call, no notification,
    no navigation), [loading] is not touched, and each field that is too
    short, and only such a field, gets its message. *)
Theorem invalid_form_sends_nothing error st :
  (Auth.utf16_length (Auth.username st) < 3)%nat
  ∨ (Auth.utf16_length (Auth.password st) < 6)%nat →
  let r := Auth.handleSubmit error st in
  r.2 = []
  ∧ Auth.loading r.1 = Auth.loading st
  ∧ (is_Some (Auth.username_error (Auth.errors r.1))
     ↔ (Auth.utf16_length (Auth.username st) < 3)%nat)
  ∧ (is_Some (Auth.password_error (Auth.errors r.1))
     ↔ (Auth.utf16_length (Auth.password st) < 6)%nat).
Proof.
  intros Hshort r. subst r. unfold Auth.handleSubmit, Auth.validate; simpl.
  destruct (Nat.ltb_spec (Auth.utf16_length (Auth.username st)) 3),
           (Nat.ltb_spec (Auth.utf16_length (Auth.password st)) 6);
    simpl; try lia; split_and!; try reflexivity;
    split; intros H'; try lia; try (eexists; reflexivity);
    destruct H' as [? [=]].
Qed.

(** The username is twice U+00E9: four bytes, two units. *)
Lemma invalid_form_sends_nothing_witness :
  let e_acute := String (ascii_of_N 0xC3) (String (ascii_of_N 0xA9) "") in
  let st := {| Auth.isLogin := true; Auth.username := e_acute +:+ e_acute;
               Auth.password := "secret1"; Auth.loading := false;
               Auth.errors := {| Auth.username_error := None;
                                 Auth.password_error := None |} |} in
  let r := Auth.handleSubmit None st in
  r.2 = []
  ∧ Auth.loading r.1 = Auth.loading st
  ∧ (is_Some (Auth.username_error (Auth.errors r.1))
     ↔ (Auth.utf16_length (Auth.username st) < 3)%nat)
  ∧ (is_Some (Auth.password_error (Auth.errors r.1))
     ↔ (Auth.utf16_length (Auth.password st) < 6)%nat).
Proof.
  apply (invalid_form_sends_nothing None
           {| Auth.isLogin := true;
              Auth.username :=
                String (ascii_of_N 0xC3) (String (ascii_of_N 0xA9) "")
                +:+ String (ascii_of_N 0xC3) (String (ascii_of_N 0xA9) "");
              Auth.password := "secret1"; Auth.loading := false;
              Auth.errors := {| Auth.username_error := None;
                                Auth.password_error := None |} |}).
  left. vm_compute. lia.
Defined.

(** X22. A submit navigates to the home page exactly when the form is
    valid (a username of 3 UTF-16 units at least, a password of 6) and the
    call came back with no error.  A valid form makes
    exactly one call, the one of its mode with the username and password
    typed, before anything else, and leaves [loading] off whatever the
    call answered. *)
Theorem submit_navigates_iff_success error st :
  let r := Auth.handleSubmit error st in
  (Auth.navigate "/" ∈ r.2
   ↔ (3 ≤ Auth.utf16_length (Auth.username st))%nat
     ∧ (6 ≤ Auth.utf16_length (Auth.password st))%nat ∧ error = None)
  ∧ ((3 ≤ Auth.utf16_length (Auth.username st))%nat
     ∧ (6 ≤ Auth.utf16_length (Auth.password st))%nat →
     Auth.loading r.1 = false
     ∧ ∃ rest, r.2 = (if Auth.isLogin st
                      then Auth.signIn (Auth.username st) (Auth.password st)
                      else Auth.signUp (Auth.username st) (Auth.password st))
                     :: rest
               ∧ List.filter Auth.is_call rest = []).
Proof.
  intros r. subst r. unfold Auth.handleSubmit.
  pose proof (validate_ok st) as Hv.
  destruct (Auth.validate st) as [ok st1] eqn:Hval. simpl in Hv.
  destruct ok; simpl.
  - assert (Hlen := proj1 Hv eq_refl). clear Hv.
    assert (Hno : ∀ message, Auth.navigate "/" ∉ Auth.caught message).
    { intros message H. unfold Auth.caught in H.
      repeat (apply elem_of_cons in H as [[=]|H]). inversion H. }
    split.
    + split.
      * intros Hin. split_and!; try tauto.
        destruct error as [message|]; [exfalso|reflexivity].
        destruct (Auth.isLogin st); apply elem_of_cons in Hin as [[=]|Hin].
        -- destruct (Auth.includes _ message); [|exact (Hno _ Hin)].
           repeat (apply elem_of_cons in Hin as [[=]|Hin]). inversion Hin.
        -- destruct (Auth.includes _ message); [|exact (Hno _ Hin)].
           repeat (apply elem_of_cons in Hin as [[=]|Hin]). inversion Hin.
      * intros (_ & _ & ->). destruct (Auth.isLogin st);
          do 2 apply list_elem_of_further; apply list_elem_of_here.
    + intros _. split; [reflexivity|].
      destruct (Auth.isLogin st); eexists; (split; [reflexivity|]);
        destruct error as [message|]; try reflexivity;
        destruct (Auth.includes _ message); reflexivity.
  - split.
    + split; [intros Hin; inversion Hin|].
      intros (H1 & H2 & _). assert (false = true) by (apply Hv; auto).
      discriminate.
    + intros H. assert (false = true) by (apply Hv; auto). discriminate.
Qed.

End Submit.

(* ===================================================================== *)
(** * What a page can reach *)
(* ===================================================================== *)

Section Reach.

Implicit Types (w : AP.World) (d : Pg.Database) (caller : option UUID).

Lemma upsert_keeps_others caller (new : Pg.user_preferences_row) d d' :
  Pg.user_preferences_upsert caller new d = (inr tt, d') →
  others_kept caller d d'.
Proof.
  unfold Pg.user_preferences_upsert.
  destruct (Pg.policy_own caller new) eqn:Ho; simpl; [|discriminate].
  unfold Pg.policy_own in Ho. apply sql_eq_true in Ho.
  destruct (existsb _ (Pg.user_preferences d)).
  - intros [= <-]. unfold others_kept; simpl. split_and!; try reflexivity.
    intros other Hne. apply replace_other. congruence.
  - destruct (negb (Pg.user_exists _ d)); [discriminate|].
    intros [= <-]. unfold others_kept; simpl. split_and!; try reflexivity.
    intros other Hne. rewrite List.filter_app; simpl. unfold of_user at 2.
    rewrite bool_decide_eq_false_2 by congruence. apply app_nil_r.
Qed.

Lemma page_step_keeps_others caller d d' :
  page_step caller d d' → others_kept caller d d'.
Proof.
  intros [-> | [(row & Hups) | (id & ->)]].
  - unfold others_kept. split_and!; reflexivity.
  - exact (upsert_keeps_others _ _ _ _ Hups).
  - unfold others_kept. split_and!; try reflexivity.
    intros Hp. rewrite (tracks_delete_hidden _ _ _ Hp). reflexivity.
Qed.

Lemma others_kept_trans caller d1 d2 d3 :
  others_kept caller d1 d2 → others_kept caller d2 d3 → others_kept caller d1 d3.
Proof.
  intros (Ha & Hr & Hp & Hs & Ho & Ht) (Ha' & Hr' & Hp' & Hs' & Ho' & Ht').
  unfold others_kept. split_and!; try congruence.
  - intros other Hne. rewrite (Ho' other Hne). exact (Ho other Hne).
  - intros Hadm. rewrite Ht', (Ht Hadm); [reflexivity|].
    unfold Pg.policy_admin, Pg.holds, Pg.has_role in *; simpl in *.
    rewrite Hr. exact Hadm.
Qed.

Lemma save_and_set_step (m : TrackSettings) w :
  let w' := AP.exec (AP.savePreferences m;; AP.setTrackSettings m) w in
  page_step (AP.auth_uid w) (AP.db w) (AP.db w') ∧ AP.user w' = AP.user w.
Proof.
  intros w'. subst w'. destruct (AP.user w) as [u|] eqn:Hu.
  - pose proof (wp_exec _ _ _ (save_and_set_spec u m w Hu))
      as (_ & _ & (Hu' & _) & _ & Hdb & _).
    split; [|congruence]. unfold AP.auth_uid. rewrite Hu; simpl.
    destruct Hdb as [-> | Hups]; [left; reflexivity|right; left; eauto].
  - assert (Hrun : AP.exec (AP.savePreferences m;; AP.setTrackSettings m) w
                   = AP.set_trackSettings m w).
    { unfold AP.exec, AP.savePreferences, AP.get, mbind, AP.M_bind.
      rewrite Hu. reflexivity. }
    rewrite Hrun. simpl. split; [left; reflexivity|exact Hu].
Qed.

Lemma handle_step (e : AP.Event) w :
  let w' := AP.exec (AP.handle e) w in
  page_step (AP.auth_uid w) (AP.db w) (AP.db w') ∧ AP.user w' = AP.user w.
Proof.
  intros w'. subst w'. destruct e as [| |j v|j b|j]; simpl.
  - pose proof (wp_exec _ _ _ (fetchTracks_spec w)) as (Hdb & _ & (Hu & _) & _).
    split; [left; exact Hdb|exact Hu].
  - destruct (AP.user w) as [u|] eqn:Hu.
    + pose proof (wp_exec _ _ _ (fetchPreferences_spec u w Hu))
        as (Hdb & _ & (Hu' & _) & _).
      split; [left; exact Hdb|congruence].
    + assert (Hrun : AP.exec AP.fetchPreferences w = w).
      { unfold AP.exec, AP.fetchPreferences, AP.get, mbind, AP.M_bind.
        rewrite Hu. reflexivity. }
      rewrite Hrun. split; [left; reflexivity|exact Hu].
  - rewrite handleVolumeChange_run. cbv zeta. apply save_and_set_step.
  - rewrite handleEnabledChange_run. cbv zeta. apply save_and_set_step.
  - pose proof (wp_exec _ _ _ (handleDeleteTrack_spec j w)) as (_ & (Hu & _) & Hdb & _).
    split; [|exact Hu].
    destruct Hdb as [-> | ->]; [left; reflexivity|right; right; eauto].
Qed.

Lemma run_keeps_others (es : list AP.Event) w :
  others_kept (AP.auth_uid w) (AP.db w) (AP.db (AP.run es w))
  ∧ AP.user (AP.run es w) = AP.user w.
Proof.
  revert w. induction es as [|e es IH]; intros w; simpl.
  - split; [|reflexivity]. unfold others_kept. split_and!; reflexivity.
  - destruct (handle_step e w) as [Hstep Hu].
    destruct (IH (AP.exec (AP.handle e) w)) as [Hrest Hu'].
    assert (Hc : AP.auth_uid (AP.exec (AP.handle e) w) = AP.auth_uid w)
      by (unfold AP.auth_uid; rewrite Hu; reflexivity).
    rewrite Hc in Hrest. split; [|congruence].
    eapply others_kept_trans; [apply page_step_keeps_others, Hstep|exact Hrest].
Qed.

(** X23. Whatever a page does (fetches, volume and enabled changes,
    deletes, in any number and order, with the backend reachable or not),
    it changes no account, role, profile or stored object, and no
    preference document but that of its own user; a page with no session
    changes no preference document at all. *)
Theorem page_writes_only_own_document (es : list AP.Event) w :
  let d' := AP.db (AP.run es w) in
  Pg.auth_users d' = Pg.auth_users (AP.db w)
  ∧ Pg.user_roles d' = Pg.user_roles (AP.db w)
  ∧ Pg.profiles d' = Pg.profiles (AP.db w)
  ∧ Pg.storage_objects d' = Pg.storage_objects (AP.db w)
  ∧ (∀ other : UUID, AP.auth_uid w ≠ Some other →
       List.filter (of_user other) (Pg.user_preferences d')
       = List.filter (of_user other) (Pg.user_preferences (AP.db w))).
Proof.
  intros d'. destruct (run_keeps_others es w) as [(Ha & Hr & Hp & Hs & Ho & _) _].
  split_and!; assumption.
Qed.

(** X24. A page whose user lacks the admin role can never change the
    track library: after any run of its handlers the [tracks] table is
    exactly as it was. *)
Theorem nonadmin_page_keeps_library (es : list AP.Event) w :
  lacks_admin (AP.auth_uid w) (AP.db w) →
  Pg.tracks (AP.db (AP.run es w)) = Pg.tracks (AP.db w).
Proof.
  intros Hl. apply policy_admin_false in Hl.
  destruct (run_keeps_others es w) as [(_ & _ & _ & _ & _ & Ht) _].
  exact (Ht Hl).
Qed.

Lemma nonadmin_page_keeps_library_witness :
  Pg.tracks (AP.db (AP.run [AP.DeleteTrack "t-rain"; AP.VolumeChange "t-rain" 30;
                            AP.FetchTracks; AP.DeleteTrack "t-rain"]
                      Scenario.alice_page))
  = Pg.tracks (AP.db Scenario.alice_page).
Proof.
  apply nonadmin_page_keeps_library.
  unfold lacks_admin. apply (bool_decide_unpack _). vm_compute. exact I.
Defined.

End Reach.

(* ===================================================================== *)
(** * Opening the page *)
(* ===================================================================== *)

Section Opening.

Implicit Types (w : AP.World) (d : Pg.Database) (u : AP.User)
  (m : TrackSettings) (id : string) (g : string → bool).

(** Each fetch is its request followed by what it does with the
    answer. *)
Lemma fetchTracks_answer :
  AP.fetchTracks = AP.supabase AP.tracks_select Pg.tracks_select ≫= tracks_answer.
Proof. reflexivity. Qed.

Lemma fetchPreferences_answer u w :
  AP.user w = Some u →
  AP.fetchPreferences w
  = (AP.supabase (AP.user_preferences_select (AP.user_id u))
       (fun caller => Pg.user_preferences_select caller (AP.user_id u))
     ≫= preferences_answer) w.
Proof.
  intros Hu. unfold AP.fetchPreferences, AP.get, mbind, AP.M_bind.
  rewrite Hu. reflexivity.
Qed.

Lemma exec_bind {A B} (m : AP.M A) (k : A → AP.M B) w :
  AP.exec (m ≫= k) w = AP.exec (k (m w).1) (m w).2.
Proof. unfold AP.exec, mbind, AP.M_bind. destruct (m w). reflexivity. Qed.

Lemma exec_seq {A B} (m : AP.M A) (k : AP.M B) w :
  AP.exec (m;; k) w = AP.exec k (AP.exec m w).
Proof. apply exec_bind. Qed.


Lemma save_and_set_frame m w :
  wp (AP.savePreferences m;; AP.setTrackSettings m)
     (fun _ w' => AP.tracks w' = AP.tracks w ∧ AP.loading w' = AP.loading w
                  ∧ same_session w w') w.
Proof.
  wp_step. eapply wp_mono; [apply savePreferences_frame|].
  intros _ w' (_ & Htr & Hl & _ & Hs). wp_steps. simpl. auto.
Qed.








(** What a control emits as it mounts: its two reports, and the log of a
    [play()] it tried and the browser refused. *)
Lemma mount_out (b : bool) (p : AudioTrack.Props) :
  (AudioTrack.mount b p).2
  = AudioTrack.onVolumeChange (AudioTrack.id p)
      (default 50 (AudioTrack.initialVolume p))
    :: AudioTrack.onEnabledChange (AudioTrack.id p)
         (default true (AudioTrack.initialEnabled p))
    :: (if default true (AudioTrack.initialEnabled p)
           && (0 <? default 50 (AudioTrack.initialVolume p))
        then if b then [] else [AudioTrack.console_error]
        else []).
Proof.
  unfold AudioTrack.mount, AudioTrack.effect_playback, AudioTrack.play; simpl.
  destruct (default true (AudioTrack.initialEnabled p)
            && (0 <? default 50 (AudioTrack.initialVolume p))); [|reflexivity].
  destruct b; reflexivity.
Qed.






(** ** The spinner *)

Lemma change_loading m w :
  AP.loading (AP.exec (AP.savePreferences m;; AP.setTrackSettings m) w)
  = AP.loading w.
Proof. exact (proj1 (proj2 (wp_exec _ _ _ (save_and_set_frame m w)))). Qed.

Lemma reports_loading (out : list AudioTrack.Emit) w :
  Forall (fun e => ∀ id, e ≠ AudioTrack.onDelete id) out →
  AP.loading (AP.exec (dispatch_all out) w) = AP.loading w.
Proof.
  intros Hout. revert w. induction Hout as [|e out He _ IH]; intros w;
    [reflexivity|].
  rewrite dispatch_all_cons, IH. destruct e as [i v|i b|i|]; simpl.
  - rewrite handleVolumeChange_run. apply change_loading.
  - rewrite handleEnabledChange_run. apply change_loading.
  - destruct (He i eq_refl).
  - reflexivity.
Qed.

Lemma mount_all_reports g (controls : list AudioTrack.Props) :
  Forall (fun e => ∀ id, e ≠ AudioTrack.onDelete id) (mount_all g controls).
Proof.
  unfold mount_all. induction controls as [|p ps IH]; [constructor|].
  rewrite bind_cons, mount_out. repeat (constructor; [discriminate|]).
  apply Forall_app. split; [|exact IH].
  destruct (_ && _); [destruct (g _)|]; repeat constructor; discriminate.
Qed.

Lemma filter_reports (f : AudioTrack.Emit → bool) (out : list AudioTrack.Emit) :
  Forall (fun e => ∀ id, e ≠ AudioTrack.onDelete id) out →
  Forall (fun e => ∀ id, e ≠ AudioTrack.onDelete id) (List.filter f out).
Proof.
  induction 1 as [|e out He _ IH]; [constructor|]. simpl.
  destruct (f e); [constructor; assumption|assumption].
Qed.

Lemma mount_controls_loading g w :
  AP.loading (AP.exec (mount_controls g) w) = AP.loading w.
Proof.
  unfold mount_controls. rewrite exec_bind. simpl fst. simpl snd.
  destruct (AP.render w) as [|b [h|controls]]; try reflexivity.
  rewrite exec_seq, !reports_loading;
    [reflexivity|apply filter_reports, mount_all_reports..].
Qed.

Lemma tracks_answer_loading (r : AP.PostgrestError + list Pg.tracks_row) w :
  AP.loading (AP.exec (tracks_answer r) w)
  = if r is inr _ then false else AP.loading w.
Proof. destruct r; reflexivity. Qed.

Lemma preferences_answer_loading
    (r : AP.PostgrestError + list Pg.user_preferences_row) w :
  AP.loading (AP.exec (preferences_answer r) w) = AP.loading w.
Proof.
  unfold preferences_answer. destruct (AP.maybeSingle r) as [e|[row|]];
    [reflexivity| |reflexivity].
  simpl. destruct (Pg.up_track_settings row); reflexivity.
Qed.

(** The two reads of a page that opens: each comes back with rows when
    the backend is reachable, and leaves the backend as it is. *)
Lemma tracks_select_trip w :
  AP.supabase AP.tracks_select Pg.tracks_select w
  = if AP.online w
    then (inr (merge_sort Pg.created_at_asc (Pg.tracks (AP.db w))),
          AP.set_db (AP.db w) (sent AP.tracks_select w))
    else (inl AP.fetch_failed, sent AP.tracks_select w).
Proof. unfold AP.supabase. destruct (AP.online w); reflexivity. Qed.

Lemma preferences_select_trip u w :
  AP.user w = Some u →
  AP.supabase (AP.user_preferences_select (AP.user_id u))
    (fun caller => Pg.user_preferences_select caller (AP.user_id u)) w
  = if AP.online w
    then (inr (List.filter (of_user (AP.user_id u)) (Pg.user_preferences (AP.db w))),
          AP.set_db (AP.db w) (sent (AP.user_preferences_select (AP.user_id u)) w))
    else (inl AP.fetch_failed, sent (AP.user_preferences_select (AP.user_id u)) w).
Proof.
  intros Hu. unfold AP.supabase, AP.auth_uid. rewrite Hu.
  destruct (AP.online w); [|reflexivity].
  rewrite <- own_rows. reflexivity.
Qed.

Lemma open_page_loading (first : bool) g w :
  AP.loading (AP.exec (open_page first g) w)
  = if AP.online w then false else AP.loading w.
Proof.
  unfold open_page. rewrite exec_bind, tracks_select_trip.
  destruct (AP.online w) eqn:Hon; simpl fst; simpl snd;
    rewrite exec_bind; simpl fst; simpl snd.
  - destruct (AP.user w) as [u|] eqn:Hu; simpl AP.user; rewrite ?Hu.
    + rewrite exec_bind, (preferences_select_trip u) by exact Hu.
      simpl AP.online. rewrite Hon. simpl fst; simpl snd.
      destruct first; rewrite !exec_seq.
      * rewrite preferences_answer_loading, mount_controls_loading. reflexivity.
      * rewrite mount_controls_loading. reflexivity.
    + rewrite exec_seq, mount_controls_loading. reflexivity.
  - destruct (AP.user w) as [u|] eqn:Hu; simpl AP.user; rewrite ?Hu.
    + rewrite exec_bind, (preferences_select_trip u) by exact Hu.
      simpl AP.online. rewrite Hon. simpl fst; simpl snd.
      destruct first; rewrite !exec_seq.
      * rewrite preferences_answer_loading, mount_controls_loading. reflexivity.
      * rewrite mount_controls_loading, tracks_answer_loading,
          preferences_answer_loading. reflexivity.
    + rewrite exec_seq, mount_controls_loading. reflexivity.
Qed.

(** X8. A page that cannot reach the backend when it opens shows the
    spinner for good: [fetchTracks] leaves [loading] set on failure, so
    once the page has opened, whichever answer came first and whatever the
    browser let play, it renders the spinner exactly when the backend was
    unreachable. *)
Theorem spinner_iff_unreachable d (net : bool) (t : Z) (url : string)
    (u : option AP.User) (adm : bool) (tracks_first : bool) g :
  AP.render (AP.exec (open_page tracks_first g) (AP.init d net t url u adm))
  = AP.Spinner
  ↔ net = false.
Proof.
  unfold AP.render. rewrite open_page_loading. simpl.
  destruct net; simpl; split; congruence.
Qed.


(** ** Reloading *)









(** ** A track with no entry *)






End Opening.
